(** * CAN log codecs and the bit-field signal decoder

    A shallow embedding of the binary log converters ([analysis/bin_to_csv.py],
    [scripts/convert_csv_to_bin.py]) and of the schema-driven decoder
    ([scripts/decode_with_obdb.py]), with the properties their
    specification states about them.

    Python values are modelled as follows: an [int] is a [Z]; a [bytes]
    object is a [list byte]; a [str] is a [string] (a [list ascii] where the
    code slices it); a [dict] is a [gmap]; [None] is [None]; a raised
    exception is [Raise]; a [float] is a binary64 [float]. *)

From Stdlib Require Import ZArith List String Ascii Floats Lia.
From Stdlib.Strings Require Import Byte.
From Stdlib Require DecimalString.
From stdpp Require Import base option list sorting gmap strings.

Open Scope Z_scope.

(** ** Exceptions *)

Inductive exc : Set :=
| ValueError | TypeError | AttributeError
| ZeroDivisionError | OverflowError | StructError.

Inductive res (A : Type) : Type :=
| Ok (a : A)
| Raise (e : exc).
Arguments Ok {A} a.
Arguments Raise {A} e.

#[global] Instance res_ret : MRet res := fun _ a => Ok a.
#[global] Instance res_bind : MBind res := fun _ _ f m =>
  match m with Ok a => f a | Raise e => Raise e end.
#[global] Instance res_fmap : FMap res := fun _ _ f m =>
  match m with Ok a => Ok (f a) | Raise e => Raise e end.

(** ** Python built-ins used by the scripts *)

Module Py.

(** [s[start:stop]] for a sequence [s] (step 1): negative indices count from
    the end, and both ends are clamped to the sequence. *)
Definition clamp_index (n i : Z) : Z :=
  if i <? 0 then Z.max (i + n) 0 else Z.min i n.

Definition slice {A} (s : list A) (start stop : Z) : list A :=
  let n := Z.of_nat (length s) in
  let lo := clamp_index n start in
  let hi := clamp_index n stop in
  take (Z.to_nat (hi - lo)) (drop (Z.to_nat lo) s).

(** [s[:stop]] *)
Definition slice_to {A} (s : list A) (stop : Z) : list A := slice s 0 stop.

(** Binary digits of a positive number, most significant first. *)
Fixpoint pos_bin (p : positive) : list ascii :=
  match p with
  | xH => ["1"%char]
  | xO q => pos_bin q ++ ["0"%char]
  | xI q => pos_bin q ++ ["1"%char]
  end.

Definition nat_bin (z : Z) : list ascii :=
  match z with
  | Zpos p => pos_bin p
  | _ => ["0"%char]
  end.

Definition zfill (w : nat) (s : list ascii) : list ascii :=
  replicate (w - length s) "0"%char ++ s.

(** [f'{b:08b}']: binary digits zero-padded to width 8; the sign of a
    negative number comes first and counts in the width. *)
Definition format_08b (b : Z) : list ascii :=
  if b <? 0 then "-"%char :: zfill 7 (nat_bin (- b)) else zfill 8 (nat_bin b).

Definition bit_of (c : ascii) : option Z :=
  if decide (c = "0"%char) then Some 0
  else if decide (c = "1"%char) then Some 1
  else None.

Fixpoint bin_digits (acc : Z) (s : list ascii) : res Z :=
  match s with
  | [] => Ok acc
  | c :: s' =>
      match bit_of c with
      | Some d => bin_digits (2 * acc + d) s'
      | None => Raise ValueError
      end
  end.

(** [int(s, 2)] on a text made of ['0'], ['1'] and ['-'] (the only characters
    [format_08b] produces): an optional sign, then at least one digit; any
    other text is a [ValueError]. *)
Definition int_base2 (s : list ascii) : res Z :=
  match s with
  | [] => Raise ValueError
  | c :: s' =>
      if decide (c = "-"%char) then
        match s' with
        | [] => Raise ValueError
        | _ => Z.opp <$> bin_digits 0 s'
        end
      else bin_digits 0 s
  end.

(** [a << n]: a negative shift count is a [ValueError]. *)
Definition shl (a n : Z) : res Z :=
  if n <? 0 then Raise ValueError else Ok (Z.shiftl a n).

(** Whitespace as [str.strip], [str.split] and [int] see it, on ASCII text. *)
Definition is_space (c : ascii) : bool :=
  let n := nat_of_ascii c in
  ((9 <=? n)%nat && (n <=? 13)%nat) || ((28 <=? n)%nat && (n <=? 32)%nat).

Fixpoint lstrip (s : list ascii) : list ascii :=
  match s with
  | c :: s' => if is_space c then lstrip s' else s
  | [] => []
  end.

Definition strip_chars (s : list ascii) : list ascii :=
  rev (lstrip (rev (lstrip s))).

(** [s.strip()] *)
Definition strip (s : string) : string :=
  string_of_list_ascii (strip_chars (list_ascii_of_string s)).

Fixpoint split_chars (cur : list ascii) (s : list ascii) : list (list ascii) :=
  match s with
  | [] => match cur with [] => [] | _ => [rev cur] end
  | c :: s' =>
      if is_space c then
        match cur with
        | [] => split_chars [] s'
        | _ => rev cur :: split_chars [] s'
        end
      else split_chars (c :: cur) s'
  end.

(** [s.split()]: the maximal runs of characters that are not whitespace. *)
Definition split (s : string) : list string :=
  map string_of_list_ascii (split_chars [] (list_ascii_of_string s)).

Definition digit_val (c : ascii) : option Z :=
  let n := Z.of_nat (nat_of_ascii c) in
  if (48 <=? n) && (n <=? 57) then Some (n - 48)
  else if (97 <=? n) && (n <=? 122) then Some (n - 87)
  else if (65 <=? n) && (n <=? 90) then Some (n - 55)
  else None.

(** Digits of a literal: single underscores may separate digits. *)
Fixpoint digits (base acc : Z) (after_digit : bool) (s : list ascii) : option Z :=
  match s with
  | [] => if after_digit then Some acc else None
  | c :: s' =>
      if decide (c = "_"%char) then
        if after_digit then digits base acc false s' else None
      else
        match digit_val c with
        | Some d => if d <? base then digits base (acc * base + d) true s' else None
        | None => None
        end
  end.

Definition unsigned_literal (base : Z) (s : list ascii) : option Z :=
  match s with
  | c0 :: cx :: s' =>
      if bool_decide (base = 16 ∧ c0 = "0"%char ∧ (cx = "x"%char ∨ cx = "X"%char))
      then
        match s' with
        | c :: s'' => if decide (c = "_"%char) then digits base 0 false s''
                      else digits base 0 false s'
        | [] => None
        end
      else digits base 0 false s
  | _ => digits base 0 false s
  end.

Definition signed_literal (base : Z) (s : list ascii) : option Z :=
  match s with
  | c :: s' =>
      if decide (c = "-"%char) then Z.opp <$> unsigned_literal base s'
      else if decide (c = "+"%char) then unsigned_literal base s'
      else unsigned_literal base s
  | [] => None
  end.

(** [int(s, base)] for base 10 or 16 on ASCII text: surrounding whitespace
    is ignored, then an optional sign, for base 16 an optional [0x], and the
    digits; anything else is a [ValueError]. *)
Definition int (base : Z) (s : string) : res Z :=
  match signed_literal base (strip_chars (list_ascii_of_string s)) with
  | Some z => Ok z
  | None => Raise ValueError
  end.

(** [str(n)] for an integer. *)
Definition str (z : Z) : string :=
  DecimalString.NilZero.string_of_int (Z.to_int z).

Definition hex_digit (d : Z) : ascii :=
  if d <? 10 then ascii_of_nat (Z.to_nat (48 + d))
  else ascii_of_nat (Z.to_nat (55 + d)).

Fixpoint pos_hex (fuel : nat) (z : Z) : list ascii :=
  match fuel with
  | O => []
  | S k => if z <? 16 then [hex_digit z]
           else pos_hex k (z / 16) ++ [hex_digit (z mod 16)]
  end.

(** [f'{z:0wX}'] for a number that is not negative: upper-case hexadecimal
    digits, zero-padded to width [w]. *)
Definition format_0wX (w : nat) (z : Z) : string :=
  string_of_list_ascii (zfill w (pos_hex (S (Z.to_nat (Z.log2 z))) z)).

End Py.

(** ** scripts/decode_with_obdb.py: the bit-field extractor *)

Definition extract_bits (data_bytes : list Z) (bix length : Z) (signed : bool)
  : res (option Z) :=
  let bit_string := concat (map Py.format_08b data_bytes) in
  if Z.of_nat (List.length bit_string) <? bix + length then Ok None
  else
    value ← Py.int_base2 (Py.slice bit_string bix (bix + length));
    if signed then
      half ← Py.shl 1 (length - 1);
      if half <=? value then
        full ← Py.shl 1 length;
        Ok (Some (value - full))
      else Ok (Some value)
    else Ok (Some value).

(** The specification's reading of the same field: the payload bytes as one
    big-endian number, and the [l] bits that start [o] bits below its top. *)
Definition be_uint (bs : list Z) : Z :=
  fold_left (fun acc b => acc * 256 + b) bs 0.

Definition bit_slice (bs : list Z) (o l : Z) : Z :=
  (be_uint bs / 2 ^ (8 * Z.of_nat (List.length bs) - o - l)) mod 2 ^ l.

Definition twos_complement (l u : Z) : Z :=
  if 2 ^ (l - 1) <=? u then u - 2 ^ l else u.

Definition is_byte (b : Z) : Prop := 0 <= b < 256.


(** ** scripts/decode_with_obdb.py: the signal decoder *)

(** A number of a definition: the built-in table writes both [-40] and
    [30.0], and a JSON file gives either. *)
Inductive pynum : Set :=
| PInt (z : Z)
| PFloat (f : float).

(** [float(n)] for an integer: the nearest binary64 number, ties to even;
    an integer beyond the range of binary64 is an [OverflowError]. *)
Definition float_of_int (z : Z) : res float :=
  match binary_normalize prec emax z 0 false with
  | S754_infinity _ => Raise OverflowError
  | sf => Ok (SF2Prim sf)
  end.

Definition to_float (x : pynum) : res float :=
  match x with
  | PInt z => float_of_int z
  | PFloat f => Ok f
  end.

(** [a / b] on floats: a zero divisor is a [ZeroDivisionError]. *)
Definition float_div (a b : float) : res float :=
  if PrimFloat.eqb b PrimFloat.zero then Raise ZeroDivisionError
  else Ok (PrimFloat.div a b).

(** A signal definition is a dictionary; a field is [None] when its key is
    absent (or bound to [None], as [build_obdb_definitions] does for an
    [add], [mul] or [div] the source omits). *)
Record signal_def : Set := {
  sd_name : option string;
  sd_bix : option Z;
  sd_len : option Z;
  sd_sign : option bool;
  sd_add : option pynum;
  sd_mul : option pynum;
  sd_div : option pynum;
  sd_unit : option string;
  sd_source : option string;
}.

Record decoded_signal : Set := {
  ds_raw : Z;
  ds_value : float;
  ds_unit : string;
  ds_name : string;
}.

Definition decode_signal (data_bytes : list Z) (signal_def : signal_def)
  : res (option decoded_signal) :=
  let bix := default 0 (sd_bix signal_def) in
  let length := default 8 (sd_len signal_def) in
  let signed := default false (sd_sign signal_def) in
  raw ← extract_bits data_bytes bix length signed;
  match raw with
  | None => Ok None
  | Some raw =>
      value ← float_of_int raw;
      value ← match sd_add signal_def with
              | Some add => a ← to_float add; Ok (PrimFloat.add value a)
              | None => Ok value
              end;
      value ← match sd_mul signal_def with
              | Some mul => m ← to_float mul; Ok (PrimFloat.mul value m)
              | None => Ok value
              end;
      value ← match sd_div signal_def with
              | Some div => d ← to_float div; float_div value d
              | None => Ok value
              end;
      Ok (Some {| ds_raw := raw;
                  ds_value := value;
                  ds_unit := default "unknown"%string (sd_unit signal_def);
                  ds_name := default "Unknown"%string (sd_name signal_def) |})
  end.

(** The specification's pipeline [((raw + add) * mul) / div], each
    parameter skipped when it is unset. *)
Definition opt_step (op : float → float → res float) (v : res float)
  (p : option pynum) : res float :=
  match p with
  | None => v
  | Some x => a ← v; b ← to_float x; op a b
  end.

Definition transform (raw : Z) (add mul div : option pynum) : res float :=
  opt_step float_div
    (opt_step (λ a b, Ok (PrimFloat.mul a b))
       (opt_step (λ a b, Ok (PrimFloat.add a b)) (float_of_int raw) add)
       mul)
    div.

(** ** scripts/decode_with_obdb.py: the definition registry *)

(** An entry of [manual_can_ids] or [obdb_can_ids]. *)
Record message_def : Set := {
  md_name : option string;
  md_signals : option (list signal_def);
  md_source : option string;
}.

(** An entry of [signal_definitions]. *)
Record merged_def : Set := {
  name : option string;
  signals : list signal_def;
  source : string;
}.

(** [a or b] on names: the empty text counts as false. *)
Definition name_or (a b : option string) : option string :=
  match a with
  | Some s => if decide (s = ""%string) then b else Some s
  | None => b
  end.

Definition from_manual (defn : message_def) : merged_def :=
  {| name := Some (default "Unknown"%string (md_name defn));
     signals := default [] (md_signals defn);
     source := default "built-in"%string (md_source defn) |}.

Definition merge_one (cid : Z) (defn : message_def)
  (signal_definitions : gmap Z merged_def) : gmap Z merged_def :=
  match signal_definitions !! cid with
  | Some existing =>
      let merged_signals := signals existing ++ default [] (md_signals defn) in
      let merged_source := (source existing ++ "+obdb")%string in
      <[cid := {| name := name_or (name existing) (md_name defn);
                  signals := merged_signals;
                  source := merged_source |}]> signal_definitions
  | None =>
      <[cid := {| name := Some (default "Unknown"%string (md_name defn));
                  signals := default [] (md_signals defn);
                  source := default "obdb"%string (md_source defn) |}]>
        signal_definitions
  end.

Definition merge_signal_definitions (manual_can_ids obdb_can_ids : gmap Z message_def)
  : gmap Z merged_def :=
  map_fold merge_one (from_manual <$> manual_can_ids) obdb_can_ids.

(** ** scripts/decode_with_obdb.py: decoding a frame *)

Record decoded_message : Set := {
  dm_name : option string;
  dm_signals : list decoded_signal;
}.

Fixpoint decode_signals (data_bytes : list Z) (defs : list signal_def)
  (decoded : list decoded_signal) : res (list decoded_signal) :=
  match defs with
  | [] => Ok decoded
  | signal_def :: rest =>
      result ← decode_signal data_bytes signal_def;
      decode_signals data_bytes rest
        (match result with
         | Some r => decoded ++ [r]
         | None => decoded
         end)
  end.

Definition decode_message (signal_definitions : gmap Z merged_def)
  (can_id : Z) (data_bytes : list Z) : res (option decoded_message) :=
  match signal_definitions !! can_id with
  | None => Ok None
  | Some can_def =>
      sigs ← decode_signals data_bytes (signals can_def) [];
      Ok (Some {| dm_name := name can_def; dm_signals := sigs |})
  end.


(** ** The [struct] module, little-endian standard sizes ([<]) *)

Module Struct.

(** The codes of a format; a count before a code other than [s] repeats it
    ([8B] is eight [B]), and [ns] is one field of [n] bytes. *)
Inductive code : Set := Q | I | H | B | S (n : nat).

Inductive value : Set :=
| VInt (z : Z)
| VBytes (b : list byte).

Definition size (c : code) : nat :=
  match c with
  | Q => 8 | I => 4 | H => 2 | B => 1 | S n => n
  end%nat.

Definition calcsize (fmt : list code) : nat := sum_list (map size fmt).

#[global] Instance byte_eq_decision : EqDecision byte := Byte.byte_eq_dec.

Definition byte_val (b : byte) : Z := Z.of_N (Byte.to_N b).

Definition byte_of_Z (z : Z) : byte := default x00 (Byte.of_N (Z.to_N z)).

Fixpoint le_uint (bs : list byte) : Z :=
  match bs with
  | [] => 0
  | b :: rest => byte_val b + 256 * le_uint rest
  end.

Fixpoint le_bytes (n : nat) (z : Z) : list byte :=
  match n with
  | O => []
  | Datatypes.S k => byte_of_Z (z mod 256) :: le_bytes k (z / 256)
  end.

Definition unpack_one (c : code) (field : list byte) : value :=
  match c with
  | S _ => VBytes field
  | _ => VInt (le_uint field)
  end.

Fixpoint unpack_from (fmt : list code) (data : list byte) : list value :=
  match fmt with
  | [] => []
  | c :: cs => unpack_one c (take (size c) data) :: unpack_from cs (drop (size c) data)
  end.

(** [struct.unpack(fmt, data)]: the buffer must have the size of the format. *)
Definition unpack (fmt : list code) (data : list byte) : res (list value) :=
  if decide (length data = calcsize fmt) then Ok (unpack_from fmt data)
  else Raise StructError.

Definition pack_one (c : code) (v : value) : res (list byte) :=
  match c, v with
  | S n, VBytes b => Ok (take n b ++ replicate (n - length b) x00)
  | S _, VInt _ => Raise StructError
  | _, VInt z =>
      if (0 <=? z) && (z <? 2 ^ (8 * Z.of_nat (size c))) then Ok (le_bytes (size c) z)
      else Raise StructError
  | _, VBytes _ => Raise StructError
  end.

(** [struct.pack(fmt, *values)]: one value per code, each within the range
    of its code. *)
Fixpoint pack (fmt : list code) (values : list value) : res (list byte) :=
  match fmt, values with
  | [], [] => Ok []
  | c :: cs, v :: vs =>
      field ← pack_one c v;
      rest ← pack cs vs;
      Ok (field ++ rest)
  | _, _ => Raise StructError
  end.

Definition int_of (v : value) : Z :=
  match v with
  | VInt z => z
  | VBytes _ => 0
  end.

End Struct.

Import Struct.

(** ** scripts/decode_with_obdb.py: the frame parsers *)

Record frame : Set := {
  fr_id : Z;
  fr_dlc : Z;
  fr_data : list Z;
}.

(** A row of [csv.DictReader]: a cell is a text, or [None] where the line
    has fewer cells than the header. *)
Abbreviation csv_row := (gmap string (option string)).

(** [int(row.get(key, 0))] *)
Definition int_cell (row : csv_row) (key : string) : res Z :=
  match row !! key with
  | None => Ok 0
  | Some None => Raise TypeError
  | Some (Some s) => Py.int 10 s
  end.

(** [str(row.get(key, dflt))] *)
Definition str_cell (row : csv_row) (key dflt : string) : string :=
  match row !! key with
  | None => dflt
  | Some None => "None"%string
  | Some (Some s) => s
  end.

(** A byte cell once stripped: [0] when empty, else its hexadecimal value,
    else its decimal value, else [0]. *)
Definition byte_of_text (val : string) : res Z :=
  if decide (val = ""%string) then Ok 0
  else
    match Py.int 16 val with
    | Raise ValueError =>
        match Py.int 10 val with
        | Raise ValueError => Ok 0
        | r => r
        end
    | r => r
    end.

Definition byte_key (i : Z) : string := ("byte" ++ Py.str i)%string.

Fixpoint for_each {A B} (f : A → res B) (l : list A) : res (list B) :=
  match l with
  | [] => Ok []
  | x :: rest => y ← f x; ys ← for_each f rest; Ok (y :: ys)
  end.

Definition range8 : list Z := [0; 1; 2; 3; 4; 5; 6; 7].

Section TextLog.

(** [re.search(pattern, line)] for the pattern of [parse_can_message]: the
    three groups of the first match, if there is one. *)
Variable re_search : string → option (string * string * string).

Definition parse_can_message (line : string) : res (option frame) :=
  match re_search line with
  | Some (g1, g2, g3) =>
      can_id ← Py.int 16 g1;
      dlc ← Py.int 10 g2;
      let data_str := Py.strip g3 in
      data_bytes ← for_each (Py.int 16) (Py.slice_to (Py.split data_str) 8);
      Ok (Some {| fr_id := can_id; fr_dlc := dlc;
                  fr_data := Py.slice_to data_bytes dlc |})
  | None => Ok None
  end.

End TextLog.

Definition parse_csv_row (row : csv_row) : res (option frame) :=
  match (can_id ← Py.int 16 (Py.strip (str_cell row "can_id" ""));
         dlc ← int_cell row "dlc";
         Ok (can_id, dlc)) with
  | Raise _ => Ok None
  | Ok (can_id, dlc) =>
      data_bytes ← for_each (λ i,
          match row !! byte_key i with
          | Some None => Raise AttributeError
          | Some (Some s) => byte_of_text (Py.strip s)
          | None => byte_of_text (Py.strip "")
          end) range8;
      Ok (Some {| fr_id := can_id; fr_dlc := dlc;
                  fr_data := Py.slice_to data_bytes dlc |})
  end.

Definition record_struct : list code := [Q; H; B; B; B; B; B; B; B; B; B].

(** The frames [parse_bin_records] yields from a file's content; each turn
    of its loop reads one record, so the length of the file bounds them. *)
Fixpoint parse_bin_records_from (turns : nat) (f : list byte) : res (list frame) :=
  match turns with
  | O => Ok []
  | Datatypes.S k =>
      let chunk := take (calcsize record_struct) f in
      if decide (length chunk < calcsize record_struct)%nat then Ok []
      else
        fields ← unpack record_struct chunk;
        match fields with
        | VInt timestamp_us :: VInt can_id :: VInt dlc :: data_bytes =>
            let data_bytes := map int_of data_bytes in
            rest ← parse_bin_records_from k (drop (calcsize record_struct) f);
            Ok ({| fr_id := can_id; fr_dlc := dlc;
                   fr_data := Py.slice_to data_bytes dlc |} :: rest)
        | _ => Raise TypeError
        end
  end.

Definition parse_bin_records (f : list byte) : res (list frame) :=
  parse_bin_records_from (length f) f.


(** ** analysis/bin_to_csv.py *)

Module BinToCsv.

Definition HEADER_FMT : list code := [S 8; H; H; Q; Q; I; I; S 28].
Definition HEADER_SIZE : Z := 64.
Definition RECORD_FMT : list code := [Q; I; B; B; S 8; H].
Definition RECORD_SIZE : Z := 24.
(** [b"CANBIN\x00"] *)
Definition MAGIC_PREFIX : list byte := [x43; x41; x4e; x42; x49; x4e; x00].
Definition VERSION : Z := 1.

Definition CSV_HEADER : string :=
  "datetime,timestamp_us,can_id,dlc,b0,b1,b2,b3,b4,b5,b6,b7".

Record header : Set := {
  log_start_unix_us : Z;
  log_start_monotonic_us : Z;
  flags : Z;
}.

(** [magic.startswith(prefix)] *)
Definition startswith (magic prefix : list byte) : bool :=
  bool_decide (take (length prefix) magic = prefix).

Definition parse_header (data : list byte) : res header :=
  if Z.of_nat (length data) <? HEADER_SIZE then Raise ValueError
  else
    fields ← unpack HEADER_FMT (Py.slice_to data HEADER_SIZE);
    match fields with
    | [VBytes magic; VInt version; VInt header_size; VInt log_start_unix_us;
       VInt log_start_mono_us; VInt record_size; VInt flags; _] =>
        if negb (startswith magic MAGIC_PREFIX) then Raise ValueError
        else if negb (version =? VERSION) then Raise ValueError
        else if negb (header_size =? HEADER_SIZE) then Raise ValueError
        else if negb (record_size =? RECORD_SIZE) then Raise ValueError
        else Ok {| log_start_unix_us := log_start_unix_us;
                   log_start_monotonic_us := log_start_mono_us;
                   flags := flags |}
    | _ => Raise TypeError
    end.

(** The state of the record loop of [convert_file]: the lines written to
    the output after the header line, and the loop's variables. *)
Record convert_state : Set := {
  dst : list string;
  leftover : list byte;
  records_written : Z;
  datetime_cache : gmap Z string;
}.

(** What a run leaves behind: the lines written after the header line, the
    count returned, and the number of trailing bytes reported on the error
    stream, if any. *)
Record convert_result : Set := {
  lines : list string;
  written : Z;
  truncated : option Z;
}.

(** The fields of one record, as
    [timestamp_us, can_id, dlc, flags, payload, _ = struct.unpack(RECORD_FMT, rec)]
    binds them. *)
Record capture_record : Set := {
  timestamp_us : Z;
  can_id : Z;
  dlc : Z;
  rec_flags : Z;
  payload : list byte;
}.

Definition decode_record (rec : list byte) : res capture_record :=
  fields ← unpack RECORD_FMT rec;
  match fields with
  | [VInt timestamp_us; VInt can_id; VInt dlc; VInt flags; VBytes payload; _] =>
      Ok {| timestamp_us := timestamp_us; can_id := can_id; dlc := dlc;
            rec_flags := flags; payload := payload |}
  | _ => Raise TypeError
  end.

(** The line written for a record, with its end of line. *)
Definition csv_line (datetime_str : string) (r : capture_record) : string :=
  let can_id_str := Py.format_0wX 3 (can_id r) in
  let bytes_hex := map (λ b, Py.format_0wX 2 (byte_val b)) (payload r) in
  let line := String.concat ","
      ([datetime_str; Py.str (timestamp_us r); can_id_str; Py.str (dlc r)] ++ bytes_hex) in
  (line ++ String (ascii_of_nat 10) "")%string.

Section Clock.

(** [datetime.fromtimestamp(s).strftime("%Y-%m-%d %H:%M:%S")]: the local
    calendar time of a second count, or the exception the library raises
    for a second count outside its calendar. *)
Variable strftime_local : Z → res string.

Definition format_datetime (log_start_unix_us log_start_mono_us timestamp_us : Z)
  (cache : gmap Z string) : res (string * gmap Z string) :=
  if log_start_unix_us =? 0 then Ok (""%string, cache)
  else
    let unix_us :=
      if timestamp_us <? log_start_mono_us then log_start_unix_us
      else log_start_unix_us + (timestamp_us - log_start_mono_us) in
    let seconds_int := unix_us / 1000000 in
    match cache !! seconds_int with
    | Some cached => Ok (cached, cache)
    | None =>
        formatted ← strftime_local seconds_int;
        Ok (formatted, <[seconds_int := formatted]> cache)
    end.

(** One turn of the inner loop: decode [rec] and write its line. *)
Definition write_record (header : header) (rec : list byte) (st : convert_state)
  : res convert_state :=
  r ← decode_record rec;
  '(datetime_str, cache) ← format_datetime (log_start_unix_us header)
      (log_start_monotonic_us header) (timestamp_us r) (datetime_cache st);
  Ok {| dst := dst st ++ [csv_line datetime_str r];
        leftover := leftover st;
        records_written := records_written st + 1;
        datetime_cache := cache |}.

Fixpoint write_records (header : header) (data : list byte) (indices : list Z)
  (st : convert_state) : res convert_state :=
  match indices with
  | [] => Ok st
  | i :: rest =>
      let offset := i * RECORD_SIZE in
      let rec := Py.slice data offset (offset + RECORD_SIZE) in
      st' ← write_record header rec st;
      write_records header data rest st'
  end.

(** The [while True] loop over the reads of the source; a read that
    returns nothing ends it. *)
Fixpoint convert_chunks (header : header) (chunks : list (list byte))
  (st : convert_state) : res convert_state :=
  match chunks with
  | [] => Ok st
  | [] :: _ => Ok st
  | chunk :: rest =>
      let data := leftover st ++ chunk in
      let record_count := Z.of_nat (length data) / RECORD_SIZE in
      let end_ := record_count * RECORD_SIZE in
      let st1 := {| dst := dst st;
                    leftover := Py.slice data end_ (Z.of_nat (length data));
                    records_written := records_written st;
                    datetime_cache := datetime_cache st |} in
      st2 ← write_records header data (seqZ 0 record_count) st1;
      convert_chunks header rest st2
  end.

(** The body of [convert_file] after the header: the record loop over the
    successive reads, then the report on what is left over. *)
Definition convert_records (header : header) (chunks : list (list byte))
  : res convert_result :=
  st ← convert_chunks header chunks
        {| dst := []; leftover := []; records_written := 0; datetime_cache := ∅ |};
  Ok {| lines := dst st;
        written := records_written st;
        truncated := match leftover st with
                     | [] => None
                     | _ => Some (Z.of_nat (length (leftover st)))
                     end |}.

(** The successive results of [src.read(size)] on the rest of a file. *)
Fixpoint reads (turns size : nat) (rest : list byte) : list (list byte) :=
  match turns with
  | O => []
  | Datatypes.S k =>
      match rest with
      | [] => []
      | _ => take size rest :: reads k size (drop size rest)
      end
  end.

Definition convert_file (input : list byte) : res convert_result :=
  let header_data := take (Z.to_nat HEADER_SIZE) input in
  header ← parse_header header_data;
  let src := drop (Z.to_nat HEADER_SIZE) input in
  convert_records header (reads (length src) (Z.to_nat (RECORD_SIZE * 1024)) src).

End Clock.

End BinToCsv.

(** ** scripts/convert_csv_to_bin.py *)

Module CsvToBin.

Definition RECORD_STRUCT : list code := [Q; H; B; B; B; B; B; B; B; B; B].

(** The [try] block of [convert]: timestamp, identifier and length. *)
Definition parse_fields (row : csv_row) : res (Z * Z * Z) :=
  timestamp ← int_cell row "timestamp_us";
  can_id ← Py.int 16 (str_cell row "can_id" "0");
  dlc ← int_cell row "dlc";
  Ok (timestamp, can_id, dlc).

Definition byte_cell (row : csv_row) (i : Z) : res Z :=
  byte_of_text (Py.strip (str_cell row (byte_key i) "")).

(** One turn of the loop of [convert]: the record written for the row, or
    [None] when the row is passed over ([continue]). *)
Definition convert_row (row : csv_row) : res (option (list byte)) :=
  match parse_fields row with
  | Raise _ => Ok None
  | Ok (timestamp, can_id, dlc) =>
      data_bytes ← for_each (byte_cell row) range8;
      record ← pack RECORD_STRUCT
        (VInt timestamp :: VInt can_id :: VInt dlc :: map VInt (Py.slice_to data_bytes 8));
      Ok (Some record)
  end.

(** [convert]: the bytes written to the output and the count of records. *)
Fixpoint convert_rows (rows : list csv_row) (f_out : list byte) (written : Z)
  : res (list byte * Z) :=
  match rows with
  | [] => Ok (f_out, written)
  | row :: rest =>
      r ← convert_row row;
      match r with
      | None => convert_rows rest f_out written
      | Some record => convert_rows rest (f_out ++ record) (written + 1)
      end
  end.

Definition convert (rows : list csv_row) : res (list byte * Z) :=
  convert_rows rows [] 0.

End CsvToBin.

(** ** Notions used to state the properties *)

(** The value of a text of binary digits. *)
Definition bits_val (s : list ascii) : Z :=
  fold_left (λ acc c, 2 * acc + (if decide (c = "1"%char) then 1 else 0)) s 0.

Definition is_bit (c : ascii) : Prop := c = "0"%char ∨ c = "1"%char.

Definition is_bitb (c : ascii) : bool :=
  bool_decide (c = "0"%char) || bool_decide (c = "1"%char).

(** A byte prints as eight binary digits that spell it. *)
Definition byte_prints (b : Z) : bool :=
  (List.length (Py.format_08b b) =? 8)%nat
  && forallb is_bitb (Py.format_08b b)
  && (bits_val (Py.format_08b b) =? b).

(** The built-in definition of the coolant temperature (CAN id [0x2C1]). *)
Definition coolant_temp : signal_def :=
  {| sd_name := Some "Coolant Temp"%string; sd_bix := Some 0; sd_len := Some 8;
     sd_sign := None; sd_add := Some (PInt (-40)); sd_mul := None; sd_div := None;
     sd_unit := Some "celsius"%string; sd_source := None |}.

(** The extraction [decode_signal] performs for a definition. *)
Definition sd_extract (data : list Z) (sd : signal_def) : res (option Z) :=
  extract_bits data (default 0 (sd_bix sd)) (default 8 (sd_len sd))
    (default false (sd_sign sd)).


(** What a definition contributes to a decoded frame. *)
Definition decoded (data : list Z) (sd : signal_def) : option decoded_signal :=
  match decode_signal data sd with
  | Ok r => r
  | Raise _ => None
  end.

(** The built-in definitions of the tyre temperatures (CAN id [0x4A7]). *)
Definition tpms_temp (nm : string) (bix : Z) : signal_def :=
  {| sd_name := Some nm; sd_bix := Some bix; sd_len := Some 8;
     sd_sign := None; sd_add := Some (PInt (-40)); sd_mul := None; sd_div := None;
     sd_unit := Some "celsius"%string; sd_source := None |}.

Definition tpms_temperature : merged_def :=
  {| name := Some "TPMS Temperature"%string;
     signals := [tpms_temp "FL Temp" 0; tpms_temp "FR Temp" 8;
                 tpms_temp "RL Temp" 16; tpms_temp "RR Temp" 24];
     source := "built-in" |}.

(** An external entry taken over as it is. *)
Definition from_obdb (defn : message_def) : merged_def :=
  {| name := Some (default "Unknown"%string (md_name defn));
     signals := default [] (md_signals defn);
     source := default "obdb"%string (md_source defn) |}.

(** The entry of the merged registry for an identifier, from its built-in
    entry and its external entry. *)
Definition merged_entry (b e : option message_def) : option merged_def :=
  match b, e with
  | Some b, Some e =>
      Some {| name := name_or (Some (default "Unknown"%string (md_name b))) (md_name e);
              signals := default [] (md_signals b) ++ default [] (md_signals e);
              source := (default "built-in"%string (md_source b) ++ "+obdb")%string |}
  | Some b, None => Some (from_manual b)
  | None, Some e => Some (from_obdb e)
  | None, None => None
  end.

Definition plain_signal (nm : string) (bix len : Z) : signal_def :=
  {| sd_name := Some nm; sd_bix := Some bix; sd_len := Some len;
     sd_sign := None; sd_add := None; sd_mul := None; sd_div := None;
     sd_unit := Some "raw"%string; sd_source := None |}.

(** A built-in table with one identifier that carries two signals, and an
    external table with one signal for the same identifier and one
    identifier of its own. *)
Definition manual_example : gmap Z message_def :=
  {[ 0x2C1 := {| md_name := Some "Engine Data"%string;
                 md_signals := Some [coolant_temp; plain_signal "Load" 8 8];
                 md_source := Some "built-in"%string |} ]}.

Definition obdb_example : gmap Z message_def :=
  {[ 0x2C1 := {| md_name := Some "ENGINE (22 1F)"%string;
                 md_signals := Some [plain_signal "Oil" 16 8];
                 md_source := Some "obdb"%string |};
     0x7E8 := {| md_name := Some "ECU (22 01)"%string;
                 md_signals := Some [plain_signal "Gear" 0 4];
                 md_source := Some "obdb"%string |} ]}.

(** The [n] bytes of a buffer from offset [off]. *)
Definition field (off n : nat) (data : list byte) : list byte :=
  take n (drop off data).

(** The conditions under which the specification rejects a header. *)
Definition header_rejected (data : list byte) : Prop :=
  (List.length data < 64)%nat
  ∨ take 7 (field 0 8 data) ≠ BinToCsv.MAGIC_PREFIX
  ∨ le_uint (field 8 2 data) ≠ 1
  ∨ le_uint (field 10 2 data) ≠ 64
  ∨ le_uint (field 28 4 data) ≠ 24.

(** A record of the capture container: timestamp 500100, then the bytes
    [D0 01 05 00] at offsets 8 to 11, [02] at offset 12, flags 0, the
    payload [12 34 00 ...] and two reserved bytes. *)
Definition record_example : list byte :=
  [x84; xa1; x07; x00; x00; x00; x00; x00;
   xd0; x01; x05; x00;
   x02; x00;
   x12; x34; x00; x00; x00; x00; x00; x00;
   x00; x00].

(** The wall-clock text of a frame as the specification gives it, for a
    formatter [strftime] of whole seconds. *)
Definition resolve (strftime : Z → res string)
  (log_start_unix_us log_start_monotonic_us timestamp_us : Z) : res string :=
  if log_start_unix_us =? 0 then Ok ""%string
  else if timestamp_us <? log_start_monotonic_us
       then strftime (log_start_unix_us / 1000000)
       else strftime ((log_start_unix_us + (timestamp_us - log_start_monotonic_us))
                      / 1000000).

(** Every text a cache holds is the one the formatter gives for its key:
    true of the empty cache a run starts with, and kept by every call. *)
Definition cache_agrees (strftime : Z → res string) (cache : gmap Z string) : Prop :=
  ∀ k v, cache !! k = Some v → strftime k = Ok v.

(** A formatter for examples: the second count in decimal. *)
Definition decimal_clock (s : Z) : res string := Ok (Py.str s).

(** The [i]-th record of a stream: its 24 bytes from offset [24 * i]. *)
Definition record_at (data : list byte) (i : nat) : list byte :=
  take 24 (drop (24 * i) data).

(** The whole records of a stream, in order. *)
Definition whole_records (data : list byte) : list (list byte) :=
  map (record_at data) (seq 0 (List.length data / 24)).

(** The line of a record, as the specification gives it: the record
    decoded, its wall-clock text resolved, and both written out. *)
Definition spec_line (strftime : Z → res string) (header : BinToCsv.header)
  (rec : list byte) : res string :=
  r ← BinToCsv.decode_record rec;
  d ← resolve strftime (BinToCsv.log_start_unix_us header)
        (BinToCsv.log_start_monotonic_us header) (BinToCsv.timestamp_us r);
  Ok (BinToCsv.csv_line d r).




(** A line of the device log as its pattern matches it, with ten byte
    tokens and a declared length of 12. *)
Definition search_example (line : string) : option (string * string * string) :=
  Some ("1D0", "12", "01 02 03 04 05 06 07 08 09 0A")%string.

(** The value [convert] takes for byte cell [i] of a row: zero for a cell
    that is missing or empty, or that is neither a hexadecimal nor a
    decimal number. *)
Definition byte_value (row : csv_row) (i : Z) : Z :=
  let val := Py.strip (str_cell row (byte_key i) "") in
  if decide (val = ""%string) then 0
  else match Py.int 16 val with
       | Ok z => z
       | Raise _ => match Py.int 10 val with
                    | Ok z => z
                    | Raise _ => 0
                    end
       end.


(** The values fit the fields of a compact record. *)
Definition fits_record (timestamp can_id dlc : Z) (data_bytes : list Z) : Prop :=
  0 <= timestamp < 2 ^ 64 ∧ 0 <= can_id < 2 ^ 16 ∧ 0 <= dlc < 2 ^ 8
  ∧ Forall is_byte data_bytes.

(** Rows for examples: one with a byte cell that is not a number, and the
    same row with a timestamp that is not a number. *)
Definition row_bad_byte : csv_row :=
  {[ "timestamp_us"%string := Some "500100"%string;
     "can_id"%string := Some "1D0"%string;
     "dlc"%string := Some "2"%string;
     "byte0"%string := Some "12"%string;
     "byte1"%string := Some "zz"%string ]}.

Definition row_bad_timestamp : csv_row :=
  <[ "timestamp_us"%string := Some "abc"%string ]> row_bad_byte.

(** The header of the specification's scenario: version 1, header size 64,
    wall clock 1,700,000,000,000,000, device clock 500,000, record size 24,
    flags 0. *)
Definition header_example : list byte :=
  [x43; x41; x4e; x42; x49; x4e; x00; x00;
   x01; x00;
   x40; x00;
   x00; x40; x1e; x18; x24; x0a; x06; x00;
   x20; xa1; x07; x00; x00; x00; x00; x00;
   x18; x00; x00; x00;
   x00; x00; x00; x00]
  ++ replicate 28 x00.

(** A row with a byte cell that reads [100], hexadecimal for 256. *)
Definition row_wide_byte : csv_row :=
  <[ "byte1"%string := Some "100"%string ]> row_bad_byte.

(** A definition that divides by zero. *)
Definition zero_div : signal_def :=
  {| sd_name := Some "Ratio"%string; sd_bix := Some 0; sd_len := Some 8;
     sd_sign := None; sd_add := None; sd_mul := None; sd_div := Some (PInt 0);
     sd_unit := Some "raw"%string; sd_source := Some "obdb"%string |}.

(** ** scripts/decode_with_obdb.py: the built-in definitions *)

Definition builtin_signal (nm : string) (bix len : Z) (sign : option bool)
  (add mul div : option pynum) (unit : string) : signal_def :=
  {| sd_name := Some nm; sd_bix := Some bix; sd_len := Some len;
     sd_sign := sign; sd_add := add; sd_mul := mul; sd_div := div;
     sd_unit := Some unit; sd_source := None |}.

Definition builtin_message (nm : string) (sigs : list signal_def) : message_def :=
  {| md_name := Some nm; md_signals := Some sigs;
     md_source := Some "built-in"%string |}.

(** The items of [self.manual_can_ids], as [__init__] writes them; a decimal
    constant stands for the nearest binary64 number, as in Python. *)
#[warnings="-inexact-float"] Definition manual_table : list (Z * message_def) :=
    [ (0x0AA, builtin_message "TPMS Pressure"
         [ builtin_signal "FL Pressure" 0 16 None None
             (Some (PFloat 0.145038)) (Some (PFloat 30)) "psi";
           builtin_signal "FR Pressure" 16 16 None None
             (Some (PFloat 0.145038)) (Some (PFloat 30)) "psi";
           builtin_signal "RL Pressure" 32 16 None None
             (Some (PFloat 0.145038)) (Some (PFloat 30)) "psi";
           builtin_signal "RR Pressure" 48 16 None None
             (Some (PFloat 0.145038)) (Some (PFloat 30)) "psi" ]);
      (0x0B4, builtin_message "Vehicle Speed"
         [ builtin_signal "Speed" 0 16 None None (Some (PFloat 1.35)) None "km/h" ]);
      (0x1AA, builtin_message "Steering Angle"
         [ builtin_signal "Steering Angle" 0 16 (Some true) None None
             (Some (PInt 10)) "degrees" ]);
      (0x1C4, builtin_message "Throttle Position"
         [ builtin_signal "Throttle Position" 8 8 None None None
             (Some (PFloat 2.55)) "%" ]);
      (0x1D0, builtin_message "Engine RPM"
         [ builtin_signal "RPM" 8 16 None None None (Some (PInt 4)) "rpm" ]);
      (0x2C1, builtin_message "Engine Data"
         [ builtin_signal "Coolant Temp" 0 8 None (Some (PInt (-40))) None None
             "celsius" ]);
      (0x4A7, builtin_message "TPMS Temperature"
         [ builtin_signal "FL Temp" 0 8 None (Some (PInt (-40))) None None "celsius";
           builtin_signal "FR Temp" 8 8 None (Some (PInt (-40))) None None "celsius";
           builtin_signal "RL Temp" 16 8 None (Some (PInt (-40))) None None "celsius";
           builtin_signal "RR Temp" 24 8 None (Some (PInt (-40))) None None "celsius" ]);
      (0x498, builtin_message "TPMS/Vehicle Data"
         [ builtin_signal "Rear Tire Pressure" 32 8 None None
             (Some (PFloat 1.583)) None "kPa" ]) ].

Definition manual_can_ids : gmap Z message_def := list_to_map manual_table.

(** A parameter that [float] accepts. *)
Definition float_ok (p : option pynum) : bool :=
  match p with
  | None => true
  | Some x => match to_float x with Ok _ => true | Raise _ => false end
  end.

(** A divisor that [float] accepts and that is not zero. *)
Definition div_ok (p : option pynum) : bool :=
  match p with
  | None => true
  | Some x => match to_float x with
              | Ok d => negb (PrimFloat.eqb d PrimFloat.zero)
              | Raise _ => false
              end
  end.

(** A definition of a field of 1 to 16 bits at an offset that is not
    negative, with parameters that are numbers and a divisor that is not
    zero. *)
Definition safe_sd (sd : signal_def) : bool :=
  (0 <=? default 0 (sd_bix sd))
  && (1 <=? default 8 (sd_len sd)) && (default 8 (sd_len sd) <=? 16)
  && float_ok (sd_add sd) && float_ok (sd_mul sd) && div_ok (sd_div sd).

(** The field of a definition lies within the 64 bits of a full frame. *)
Definition within_frame (sd : signal_def) : bool :=
  default 0 (sd_bix sd) + default 8 (sd_len sd) <=? 64.

Definition is_ok {A} (r : res A) : bool :=
  match r with Ok _ => true | Raise _ => false end.

(** [p] holds of the [n] integers from [z] on. *)
Fixpoint all_from (n : nat) (z : Z) (p : Z → bool) : bool :=
  match n with
  | O => true
  | Datatypes.S k => p z && all_from k (z + 1) p
  end.

(** ** scripts/decode_with_obdb.py: definitions from an OBDb file *)

(** The [fmt] object of a signal of the file; a field is [None] when the
    object has no such key. *)
Record obdb_fmt : Set := {
  fmt_bix : option Z;
  fmt_len : option Z;
  fmt_add : option pynum;
  fmt_mul : option pynum;
  fmt_div : option pynum;
  fmt_sign : option bool;
  fmt_signed : option bool;
  fmt_unit : option string;
}.

Record obdb_signal : Set := {
  sig_name : option string;
  sig_id : option string;
  sig_path : option string;
  sig_fmt : option obdb_fmt;
}.

(** A command of the file: its [rax] text, its signals, and the items of
    its [cmd] object in the order of the file. *)
Record obdb_command : Set := {
  cmd_rax : option string;
  cmd_signals : option (list obdb_signal);
  cmd_cmd : option (list (string * string));
}.

Definition no_fmt : obdb_fmt :=
  {| fmt_bix := None; fmt_len := None; fmt_add := None; fmt_mul := None;
     fmt_div := None; fmt_sign := None; fmt_signed := None; fmt_unit := None |}.

(** Truth of a text or [None]: a text that is not empty. *)
Definition truthy (s : option string) : bool :=
  match s with
  | Some s => negb (bool_decide (s = ""%string))
  | None => false
  end.

Definition _build_obdb_message_name (cmd : obdb_command) : string :=
  let path :=
    match cmd_signals cmd with
    | Some (first :: _) => sig_path first
    | _ => None
    end in
  let cmd_label :=
    match cmd_cmd cmd with
    | Some ((svc, pid) :: _) => Some (svc ++ " " ++ pid)%string
    | _ => None
    end in
  match path, cmd_label with
  | Some p, Some l =>
      if truthy path then (p ++ " (" ++ l ++ ")")%string
      else ("OBDb " ++ l)%string
  | Some p, None => if truthy path then p else "OBDb Signal"%string
  | None, Some l => ("OBDb " ++ l)%string
  | None, None => "OBDb Signal"%string
  end.

(** The definition [build_obdb_definitions] appends for a signal. *)
Definition obdb_signal_def (sig : obdb_signal) : signal_def :=
  let fmt := default no_fmt (sig_fmt sig) in
  {| sd_name := Some (default (default "OBDb Signal"%string (sig_id sig)) (sig_name sig));
     sd_bix := Some (default 0 (fmt_bix fmt));
     sd_len := Some (default 8 (fmt_len fmt));
     sd_add := fmt_add fmt;
     sd_mul := fmt_mul fmt;
     sd_div := fmt_div fmt;
     sd_sign := Some (default (default false (fmt_signed fmt)) (fmt_sign fmt));
     sd_unit := Some (default "raw"%string (fmt_unit fmt));
     sd_source := Some "obdb"%string |}.

(** One turn of the loop of [build_obdb_definitions]. *)
Definition build_obdb_command (obdb_can_ids : gmap Z message_def)
  (cmd : obdb_command) : gmap Z message_def :=
  if truthy (cmd_rax cmd) then
    match Py.int 16 (default ""%string (cmd_rax cmd)) with
    | Raise _ => obdb_can_ids
    | Ok can_id =>
        let signals := map obdb_signal_def (default [] (cmd_signals cmd)) in
        match signals with
        | [] => obdb_can_ids
        | _ =>
            <[can_id := {| md_name := Some (_build_obdb_message_name cmd);
                           md_signals := Some signals;
                           md_source := Some "obdb"%string |}]> obdb_can_ids
        end
    end
  else obdb_can_ids.

Definition build_obdb_definitions (commands : list obdb_command)
  : gmap Z message_def :=
  foldl build_obdb_command ∅ commands.

(** What a command contributes to the table: nothing when it has no [rax],
    when its [rax] is no hexadecimal number, or when it has no signal. *)
Definition obdb_entry (cmd : obdb_command) : option (Z * message_def) :=
  match cmd_rax cmd with
  | None => None
  | Some rax =>
      if decide (rax = ""%string) then None
      else match Py.int 16 rax, default [] (cmd_signals cmd) with
           | Ok can_id, sig :: sigs =>
               Some (can_id,
                     {| md_name := Some (_build_obdb_message_name cmd);
                        md_signals := Some (map obdb_signal_def (sig :: sigs));
                        md_source := Some "obdb"%string |})
           | _, _ => None
           end
  end.

(** Two commands that answer on the same identifier. *)
Definition command_example (path nm pid : string) : obdb_command :=
  {| cmd_rax := Some "7E8"%string;
     cmd_signals := Some [ {| sig_name := Some nm; sig_id := None;
                              sig_path := Some path; sig_fmt := None |} ];
     cmd_cmd := Some [("22"%string, pid)] |}.

(** The entry the second of two such commands leaves. *)
Definition command_entry_example : message_def :=
  {| md_name := Some "Gearbox (22 2A00)"%string;
     md_signals := Some [ {| sd_name := Some "Gear"%string; sd_bix := Some 0;
                             sd_len := Some 8; sd_sign := Some false;
                             sd_add := None; sd_mul := None; sd_div := None;
                             sd_unit := Some "raw"%string;
                             sd_source := Some "obdb"%string |} ];
     md_source := Some "obdb"%string |}.

(** ** Notions for the compact records *)

(** The frame [parse_bin_records] yields for a record of 19 bytes. *)
Definition frame_of_record (rec : list byte) : frame :=
  let dlc := le_uint (field 10 1 rec) in
  {| fr_id := le_uint (field 8 2 rec);
     fr_dlc := dlc;
     fr_data := Py.slice_to (map byte_val (field 11 8 rec)) dlc |}.

(** The whole records of a compact file, in order. *)
Definition compact_records (f : list byte) : list (list byte) :=
  map (λ i, take 19 (drop (19 * i) f)) (seq 0 (List.length f / 19)).

(** The frame a CSV row stands for, when its timestamp, identifier and
    length can be read. *)
Definition row_frame (row : csv_row) : option frame :=
  match CsvToBin.parse_fields row with
  | Ok (_, can_id, dlc) =>
      Some {| fr_id := can_id; fr_dlc := dlc;
              fr_data := Py.slice_to (map (byte_value row) range8) dlc |}
  | Raise _ => None
  end.

(** ** scripts/decode_with_obdb.py: [analyze] and the summary *)

(** [self.messages_by_id[msg['id']].append(msg)], where [messages_by_id] is
    a [defaultdict(list)]: a first frame of an identifier creates its list. *)
Definition append_message (messages_by_id : gmap Z (list frame)) (msg : frame)
  : gmap Z (list frame) :=
  <[fr_id msg := default [] (messages_by_id !! fr_id msg) ++ [msg]]> messages_by_id.

(** The log file as [analyze] tells the kinds apart: compact records when
    the suffix is [.bin]; else the rows of [csv.DictReader] when the first
    line starts with [timestamp_us]; else lines of text. *)
Inductive log_file : Type :=
| BinLog (f : list byte)
| CsvLog (rows : list csv_row)
| TextLog (lines : list string).

(** [sub in s] *)
Fixpoint contains (sub s : string) : bool :=
  String.prefix sub s
  || match s with
     | EmptyString => false
     | String _ s' => contains sub s'
     end.

(** The loops of [analyze] over rows and over lines: each item is parsed,
    and its frame, if there is one, is appended under its identifier. *)
Fixpoint analyze_loop {A} (parse : A → res (option frame)) (items : list A)
  (messages_by_id : gmap Z (list frame)) : res (gmap Z (list frame)) :=
  match items with
  | [] => Ok messages_by_id
  | item :: rest =>
      msg ← parse item;
      analyze_loop parse rest
        match msg with
        | Some msg => append_message messages_by_id msg
        | None => messages_by_id
        end
  end.

Section Analyze.

Variable re_search : string → option (string * string * string).

(** [analyze] on a log file that exists: the frames by identifier. *)
Definition analyze (log : log_file) : res (gmap Z (list frame)) :=
  match log with
  | BinLog f =>
      msgs ← parse_bin_records f;
      Ok (foldl append_message ∅ msgs)
  | CsvLog rows => analyze_loop parse_csv_row rows ∅
  | TextLog lines =>
      analyze_loop (λ line,
          if contains "ID:" line then parse_can_message re_search line
          else Ok None) lines ∅
  end.

End Analyze.

(** [sorted(self.messages_by_id.keys())] *)
Definition sorted_keys (messages_by_id : gmap Z (list frame)) : list Z :=
  merge_sort Z.le (map_to_list messages_by_id).*1.

(** [print_decoded_summary]: the two counters at the end of its loop, which
    its last line prints. *)
Definition print_decoded_summary (signal_definitions : gmap Z merged_def)
  (messages_by_id : gmap Z (list frame)) : Z * Z :=
  foldl (λ '(decoded_count, unknown_count) can_id,
      let messages := default [] (messages_by_id !! can_id) in
      let count := Z.of_nat (List.length messages) in
      if decide (is_Some (signal_definitions !! can_id))
      then (decoded_count + count, unknown_count)
      else (decoded_count, unknown_count + count))
    (0, 0) (sorted_keys messages_by_id).

(** ** Notions for the analysis *)

(** The frames of a log that carry an identifier, in the order of the log;
    [None] when there is none. *)
Definition frames_with (can_id : Z) (msgs : list frame) : option (list frame) :=
  match filter (λ msg, fr_id msg = can_id) msgs with
  | [] => None
  | l => Some l
  end.

(** A CSV row as a capture writes it: its timestamp can be read, it has an
    identifier cell, and none of its byte cells is cut off ([None]). *)
Definition full_row (row : csv_row) : bool :=
  is_ok (int_cell row "timestamp_us")
  && match row !! "can_id"%string with Some _ => true | None => false end
  && forallb (λ i, match row !! byte_key i with
                   | Some None => false
                   | _ => true
                   end) range8.
(** * Properties *)

(** ** The bit-field extractor *)

Section BitStrings.

Lemma is_bitb_spec c : is_bitb c = true → is_bit c.
Proof.
  unfold is_bitb, is_bit. intros H.
  apply orb_true_iff in H as [H|H]; apply bool_decide_eq_true in H; auto.
Qed.

Lemma fold_bits_app acc s t :
  fold_left (λ acc c, 2 * acc + (if decide (c = "1"%char) then 1 else 0)) (s ++ t) acc
  = fold_left (λ acc c, 2 * acc + (if decide (c = "1"%char) then 1 else 0)) t
      (fold_left (λ acc c, 2 * acc + (if decide (c = "1"%char) then 1 else 0)) s acc).
Proof. apply fold_left_app. Qed.

Lemma fold_bits_acc s : ∀ acc,
  fold_left (λ acc c, 2 * acc + (if decide (c = "1"%char) then 1 else 0)) s acc
  = acc * 2 ^ Z.of_nat (List.length s) + bits_val s.
Proof.
  unfold bits_val. induction s as [|c s IH]; intros acc; simpl.
  - lia.
  - rewrite IH, (IH (2 * 0 + _)).
    replace (Z.of_nat (Datatypes.S (List.length s))) with (Z.of_nat (List.length s) + 1) by lia.
    rewrite Z.pow_add_r by lia. lia.
Qed.

Lemma bits_val_app s t :
  bits_val (s ++ t) = bits_val s * 2 ^ Z.of_nat (List.length t) + bits_val t.
Proof.
  unfold bits_val at 1. rewrite fold_bits_app, fold_bits_acc. reflexivity.
Qed.

Lemma bits_val_single c : 0 <= bits_val [c] < 2.
Proof. unfold bits_val. simpl. destruct (decide (c = "1"%char)); lia. Qed.

Lemma bits_val_bounds s : 0 <= bits_val s < 2 ^ Z.of_nat (List.length s).
Proof.
  induction s as [|c s IH] using rev_ind.
  - unfold bits_val. simpl. lia.
  - rewrite bits_val_app, length_app.
    pose proof (bits_val_single c) as Hc.
    change (Z.of_nat (List.length [c])) with 1.
    replace (Z.of_nat (List.length s + List.length [c]))
      with (Z.of_nat (List.length s) + 1) by (simpl; lia).
    rewrite Z.pow_add_r by lia. lia.
Qed.

Lemma bin_digits_fold s : ∀ acc,
  Forall is_bit s →
  Py.bin_digits acc s
  = Ok (fold_left (λ acc c, 2 * acc + (if decide (c = "1"%char) then 1 else 0)) s acc).
Proof.
  induction s as [|c s IH]; intros acc Hs; [reflexivity|].
  inversion Hs as [|? ? Hc Hs']; subst.
  destruct Hc as [-> | ->]; simpl; by rewrite IH.
Qed.

Lemma bin_digits_bits s acc :
  Forall is_bit s →
  Py.bin_digits acc s = Ok (acc * 2 ^ Z.of_nat (List.length s) + bits_val s).
Proof. intros Hs. by rewrite bin_digits_fold, fold_bits_acc. Qed.

Lemma all_bytes_print : forallb byte_prints (seqZ 0 256) = true.
Proof. vm_compute. reflexivity. Qed.

Lemma format_08b_byte b :
  is_byte b →
  List.length (Py.format_08b b) = 8%nat
  ∧ Forall is_bit (Py.format_08b b)
  ∧ bits_val (Py.format_08b b) = b.
Proof.
  intros Hb.
  assert (Hin : b ∈ seqZ 0 256) by (apply elem_of_seqZ; unfold is_byte in Hb; lia).
  pose proof all_bytes_print as Hall.
  rewrite forallb_forall in Hall.
  specialize (Hall b (proj1 (list_elem_of_In _ _) Hin)).
  unfold byte_prints in Hall.
  apply andb_true_iff in Hall as [Hall Hv].
  apply andb_true_iff in Hall as [Hl Hbits].
  split; [by apply Nat.eqb_eq|]. split; [|by apply Z.eqb_eq].
  apply Forall_forall. intros c Hc.
  rewrite forallb_forall in Hbits. apply is_bitb_spec, Hbits.
  by apply list_elem_of_In.
Qed.

Lemma bit_string_bytes data :
  Forall is_byte data →
  Z.of_nat (List.length (concat (map Py.format_08b data)))
  = 8 * Z.of_nat (List.length data)
  ∧ Forall is_bit (concat (map Py.format_08b data))
  ∧ ∀ acc, fold_left (λ acc b, acc * 256 + b) data acc
           = acc * 2 ^ (8 * Z.of_nat (List.length data))
             + bits_val (concat (map Py.format_08b data)).
Proof.
  induction 1 as [|b data Hb Hdata (IHl & IHb & IHv)].
  - repeat split; [constructor|]. intros acc. unfold bits_val. simpl. lia.
  - destruct (format_08b_byte b Hb) as (Hl & Hbits & Hv).
    cbn [map concat List.length fold_left].
    split; [rewrite length_app; lia|].
    split; [by apply Forall_app|].
    intros acc. rewrite IHv, bits_val_app, IHl, Hv.
    replace (8 * Z.of_nat (Datatypes.S (List.length data)))
      with (8 * Z.of_nat (List.length data) + 8) by lia.
    rewrite Z.pow_add_r by lia. lia.
Qed.

End BitStrings.

Lemma slice_in_range {A} (s : list A) (o l : Z) :
  0 <= o → 0 <= l → o + l <= Z.of_nat (List.length s) →
  Py.slice s o (o + l) = take (Z.to_nat l) (drop (Z.to_nat o) s).
Proof.
  intros Ho Hl Hn. unfold Py.slice, Py.clamp_index.
  destruct (Z.ltb_spec o 0); [lia|].
  destruct (Z.ltb_spec (o + l) 0); [lia|].
  do 2 f_equal; lia.
Qed.

Lemma bits_val_middle s (o l : nat) :
  Forall is_bit s → (o + l <= List.length s)%nat →
  bits_val (take l (drop o s))
  = (bits_val s / 2 ^ (Z.of_nat (List.length s) - Z.of_nat o - Z.of_nat l))
    mod 2 ^ Z.of_nat l.
Proof.
  intros Hs Hlen.
  rewrite <- (take_drop o s) at 2.
  rewrite <- (take_drop l (drop o s)) at 2.
  rewrite !bits_val_app.
  pose proof (bits_val_bounds (take l (drop o s))) as Hm.
  pose proof (bits_val_bounds (drop l (drop o s))) as Hc.
  pose proof (bits_val_bounds (take o s)) as Ha.
  rewrite length_app.
  rewrite length_take, !length_drop in *.
  replace (Z.of_nat (l `min` (List.length s - o))) with (Z.of_nat l) in * by lia.
  replace (Z.of_nat (l `min` (List.length s - o) + (List.length s - o - l))) with
    (Z.of_nat l + Z.of_nat (List.length s - o - l)) by lia.
  replace (Z.of_nat (List.length s) - Z.of_nat o - Z.of_nat l)
    with (Z.of_nat (List.length s - o - l)) by lia.
  set (k := Z.of_nat (List.length s - o - l)) in *.
  set (va := bits_val (take o s)) in *.
  set (vm := bits_val (take l (drop o s))) in *.
  set (vc := bits_val (drop l (drop o s))) in *.
  rewrite Z.pow_add_r by lia.
  assert (Hk : 0 < 2 ^ k) by (apply Z.pow_pos_nonneg; lia).
  assert (Hl2 : 0 < 2 ^ Z.of_nat l) by (apply Z.pow_pos_nonneg; lia).
  replace (va * (2 ^ Z.of_nat l * 2 ^ k) + (vm * 2 ^ k + vc))
    with ((va * 2 ^ Z.of_nat l + vm) * 2 ^ k + vc) by lia.
  rewrite Z.div_add_l by lia.
  rewrite (Z.div_small vc) by lia.
  rewrite Z.add_0_r, Z.add_comm, Z.mod_add by lia.
  symmetry. apply Z.mod_small. lia.
Qed.

Lemma shl_one n : 0 <= n → Py.shl 1 n = Ok (2 ^ n).
Proof.
  intros Hn. unfold Py.shl. destruct (Z.ltb_spec n 0); [lia|].
  by rewrite Z.shiftl_1_l.
Qed.

Lemma int_base2_bits s :
  Forall is_bit s → s ≠ [] → Py.int_base2 s = Ok (bits_val s).
Proof.
  intros Hs Hne. destruct s as [|c s]; [done|].
  unfold Py.int_base2.
  assert (Hc : c ≠ "-"%char).
  { inversion Hs as [|? ? [-> | ->] _]; done. }
  destruct (decide (c = "-"%char)); [done|].
  by rewrite bin_digits_bits, Z.mul_0_l, Z.add_0_l.
Qed.

(** The extractor before the sign is applied. *)
Lemma extract_bits_unsigned data o l :
  Forall is_byte data → 0 <= o → 1 <= l →
  o + l <= 8 * Z.of_nat (List.length data) →
  Py.int_base2 (Py.slice (concat (map Py.format_08b data)) o (o + l))
  = Ok (bit_slice data o l).
Proof.
  intros Hdata Ho Hl Hlen.
  destruct (bit_string_bytes data Hdata) as (Hn & Hbits & Hv).
  rewrite slice_in_range by lia.
  assert (Hsub : Forall is_bit
            (take (Z.to_nat l) (drop (Z.to_nat o) (concat (map Py.format_08b data))))).
  { by apply Forall_take, Forall_drop. }
  rewrite int_base2_bits; [|assumption|].
  - f_equal. rewrite bits_val_middle by (assumption || lia).
    unfold bit_slice, be_uint. rewrite Hv, Hn, !Z2Nat.id by lia.
    by rewrite Z.mul_0_l, Z.add_0_l.
  - intros Hnil. apply (f_equal List.length) in Hnil.
    rewrite length_take, length_drop in Hnil. simpl in Hnil. lia.
Qed.

(** C1. For a payload of bytes and a field that lies inside it
    ([0 <= o], [1 <= l], [o + l <= 8 * len]), the extractor returns the
    unsigned number spelled by bits [o, o+l) of the payload read as one
    big-endian bit sequence; with the signed flag, that number minus [2^l]
    whenever it is at least [2^(l-1)]. *)
Theorem extract_bits_spec (data : list Z) (o l : Z) (signed : bool) :
  Forall is_byte data →
  0 <= o → 1 <= l → o + l <= 8 * Z.of_nat (List.length data) →
  extract_bits data o l signed
  = Ok (Some (if signed then twos_complement l (bit_slice data o l)
              else bit_slice data o l)).
Proof.
  intros Hdata Ho Hl Hlen. unfold extract_bits.
  destruct (bit_string_bytes data Hdata) as (Hn & _ & _).
  rewrite Hn. destruct (Z.ltb_spec (8 * Z.of_nat (List.length data)) (o + l)); [lia|].
  rewrite extract_bits_unsigned by assumption. cbn [mbind res_bind].
  destruct signed; [|reflexivity].
  rewrite (shl_one (l - 1)), (shl_one l) by lia.
  cbn [mbind res_bind]. unfold twos_complement.
  by destruct (2 ^ (l - 1) <=? bit_slice data o l).
Qed.

(** The scenario of C1: bits 4 to 11 of [0x1A 0x2B] are [10100010]. *)
Lemma extract_bits_spec_witness :
  extract_bits [0x1A; 0x2B] 4 8 false = Ok (Some 162).
Proof.
  apply (extract_bits_spec [0x1A; 0x2B] 4 8 false).
  - repeat constructor; unfold is_byte; lia.
  - lia.
  - lia.
  - simpl. lia.
Defined.

(** ** The signal decoder *)

Ltac step_res :=
  cbn [mbind res_bind];
  try reflexivity;
  match goal with
  | |- context [to_float ?x] => destruct (to_float x)
  | |- context [float_div ?a ?b] => destruct (float_div a b)
  | |- context [float_of_int ?z] => destruct (float_of_int z)
  end.

(** C2. Once the raw integer of a definition is extracted, the decoder's
    value is [((raw + add) * mul) / div] computed in that order on floats,
    each of [add], [mul], [div] skipped when unset, and its result carries
    the raw integer, that value, the unit and the name of the definition. *)
Theorem decode_signal_transform (data : list Z) (sd : signal_def) (raw : Z) :
  extract_bits data (default 0 (sd_bix sd)) (default 8 (sd_len sd))
    (default false (sd_sign sd)) = Ok (Some raw) →
  decode_signal data sd
  = value ← transform raw (sd_add sd) (sd_mul sd) (sd_div sd);
    Ok (Some {| ds_raw := raw;
                ds_value := value;
                ds_unit := default "unknown"%string (sd_unit sd);
                ds_name := default "Unknown"%string (sd_name sd) |}).
Proof.
  intros Hraw. unfold decode_signal. rewrite Hraw.
  unfold transform, opt_step.
  destruct (sd_add sd) as [a|], (sd_mul sd) as [m|], (sd_div sd) as [d|];
    repeat step_res.
Qed.

(** The scenario of C2: raw 162 with [add = -40] and no [mul] or [div] is
    122 degrees. *)
Lemma decode_signal_transform_witness :
  decode_signal [162] coolant_temp
  = Ok (Some {| ds_raw := 162; ds_value := 122%float;
                ds_unit := "celsius"; ds_name := "Coolant Temp" |}).
Proof.
  rewrite (decode_signal_transform [162] coolant_temp 162); reflexivity.
Defined.

(** A definition whose [div] is zero makes the decoder raise, as the
    division of the pipeline does. *)
Remark decode_signal_zero_div :
  decode_signal [162] zero_div = Raise ZeroDivisionError
  ∧ transform 162 None None (Some (PInt 0)) = Raise ZeroDivisionError.
Proof. split; reflexivity. Qed.

(** ** Decoding a frame *)

Lemma extract_bits_out_of_range data o l signed :
  Forall is_byte data →
  8 * Z.of_nat (List.length data) < o + l →
  extract_bits data o l signed = Ok None.
Proof.
  intros Hdata Hlen. unfold extract_bits.
  destruct (bit_string_bytes data Hdata) as (Hn & _ & _). rewrite Hn.
  by destruct (Z.ltb_spec (8 * Z.of_nat (List.length data)) (o + l)); [|lia].
Qed.

Lemma decode_signal_miss data sd :
  sd_extract data sd = Ok None → decode_signal data sd = Ok None.
Proof. unfold sd_extract, decode_signal. by intros ->. Qed.



Lemma decode_signals_omap data sigs : ∀ acc,
  Forall (λ sd, ∃ r, decode_signal data sd = Ok r) sigs →
  decode_signals data sigs acc = Ok (acc ++ omap (decoded data) sigs).
Proof.
  induction sigs as [|sd sigs IH]; intros acc Hok.
  - simpl. by rewrite app_nil_r.
  - inversion Hok as [|? ? [r Hr] Hrest]; subst.
    cbn [decode_signals omap list_omap]. unfold decoded at 1.
    rewrite Hr. cbn [mbind res_bind]. rewrite IH by assumption.
    destruct r; [by rewrite <- app_assoc | done].
Qed.



(** ** The definition registry *)

Lemma merge_one_lookup cid defn acc j :
  merge_one cid defn acc !! j
  = if decide (cid = j)
    then Some (match acc !! cid with
               | Some existing =>
                   {| name := name_or (name existing) (md_name defn);
                      signals := signals existing ++ default [] (md_signals defn);
                      source := (source existing ++ "+obdb")%string |}
               | None => from_obdb defn
               end)
    else acc !! j.
Proof.
  unfold merge_one.
  destruct (acc !! cid) as [existing|] eqn:Hacc; rewrite lookup_insert;
    by destruct (decide (cid = j)).
Qed.

Lemma merge_lookup (manual obdb : gmap Z message_def) (cid : Z) :
  merge_signal_definitions manual obdb !! cid
  = merged_entry (manual !! cid) (obdb !! cid).
Proof.
  unfold merge_signal_definitions. revert cid.
  apply (map_fold_weak_ind
           (λ r (m : gmap Z message_def),
              ∀ cid, r !! cid = merged_entry (manual !! cid) (m !! cid))).
  - intros cid. rewrite lookup_fmap, lookup_empty.
    by destruct (manual !! cid).
  - intros i x m r Hfresh IH cid.
    rewrite merge_one_lookup, lookup_insert.
    destruct (decide (i = cid)) as [->|Hne]; [|by apply IH].
    rewrite IH, Hfresh. by destruct (manual !! cid).
Qed.

(** C4, as the code has it. For every built-in table and every external
    table, the merged registry holds, for an identifier of both, the
    built-in signals followed by the external ones, under the built-in
    provenance followed by [+obdb]; for an identifier of one table only,
    that table's entry with its own provenance ([built-in], [obdb]); and
    every identifier and every signal of either table is still there. *)
Theorem merge_signal_definitions_spec (manual obdb : gmap Z message_def) :
  (∀ cid, merge_signal_definitions manual obdb !! cid
          = merged_entry (manual !! cid) (obdb !! cid))
  ∧ dom (merge_signal_definitions manual obdb) = dom manual ∪ dom obdb
  ∧ (∀ cid defn sd,
       manual !! cid = Some defn ∨ obdb !! cid = Some defn →
       sd ∈ default [] (md_signals defn) →
       ∃ m, merge_signal_definitions manual obdb !! cid = Some m ∧ sd ∈ signals m).
Proof.
  split; [apply merge_lookup|]. split.
  - apply set_eq. intros cid.
    rewrite elem_of_union, !elem_of_dom, merge_lookup.
    rewrite !is_Some_alt.
    destruct (manual !! cid), (obdb !! cid); simpl; tauto.
  - intros cid defn sd Hdef Hsd. rewrite merge_lookup.
    destruct Hdef as [Hdef|Hdef]; rewrite Hdef.
    + destruct (obdb !! cid); simpl; eexists; split; try reflexivity; simpl;
        [apply elem_of_app; by left | done].
    + destruct (manual !! cid); simpl; eexists; split; try reflexivity; simpl;
        [apply elem_of_app; by right | done].
Qed.

(** The external signal of the shared identifier is still in the merged
    entry. *)
Lemma merge_signal_definitions_spec_witness :
  ∃ m, merge_signal_definitions manual_example obdb_example !! 0x2C1 = Some m
       ∧ plain_signal "Oil" 16 8 ∈ signals m.
Proof.
  refine (proj2 (proj2 (merge_signal_definitions_spec manual_example obdb_example))
            0x2C1 {| md_name := Some "ENGINE (22 1F)"%string;
                     md_signals := Some [plain_signal "Oil" 16 8];
                     md_source := Some "obdb"%string |}
            (plain_signal "Oil" 16 8) _ _).
  - right. reflexivity.
  - simpl. constructor.
Defined.

(** The provenance of a merged entry is spelled [built-in+obdb], and that
    of an entry only the external table has is [obdb]: neither is the
    [built-in+external] or [external] of C4. The merged entry does hold
    the three signals, built-in ones first. *)
Lemma merge_provenance_counterexample :
  (source <$> merge_signal_definitions manual_example obdb_example !! 0x2C1)
    = Some "built-in+obdb"%string
  ∧ (source <$> merge_signal_definitions manual_example obdb_example !! 0x2C1)
    ≠ Some "built-in+external"%string
  ∧ (source <$> merge_signal_definitions manual_example obdb_example !! 0x7E8)
    = Some "obdb"%string
  ∧ (source <$> merge_signal_definitions manual_example obdb_example !! 0x7E8)
    ≠ Some "external"%string
  ∧ (signals <$> merge_signal_definitions manual_example obdb_example !! 0x2C1)
    = Some [coolant_temp; plain_signal "Load" 8 8; plain_signal "Oil" 16 8].
Proof.
  rewrite !merge_lookup. vm_compute. repeat split; congruence.
Qed.

(** ** The capture container header *)

Lemma take_drop_take {A} (l : list A) (n k m : nat) :
  (k + n <= m)%nat → take n (drop k (take m l)) = take n (drop k l).
Proof.
  intros Hle. rewrite skipn_firstn_comm, take_take. f_equal. lia.
Qed.

Lemma slice_to_ge {A} (l : list A) (n : Z) :
  0 <= n <= Z.of_nat (List.length l) → Py.slice_to l n = take (Z.to_nat n) l.
Proof.
  intros Hn. unfold Py.slice_to.
  replace n with (0 + n) at 1 by lia.
  rewrite slice_in_range by lia. by rewrite drop_0.
Qed.

Lemma unpack_header (data : list byte) :
  (64 <= List.length data)%nat →
  unpack BinToCsv.HEADER_FMT (Py.slice_to data BinToCsv.HEADER_SIZE)
  = Ok [VBytes (field 0 8 data); VInt (le_uint (field 8 2 data));
        VInt (le_uint (field 10 2 data)); VInt (le_uint (field 12 8 data));
        VInt (le_uint (field 20 8 data)); VInt (le_uint (field 28 4 data));
        VInt (le_uint (field 32 4 data)); VBytes (field 36 28 data)].
Proof.
  intros Hlen. unfold BinToCsv.HEADER_SIZE.
  rewrite slice_to_ge by lia.
  unfold unpack.
  destruct (decide _) as [_|Hne];
    [|exfalso; apply Hne; rewrite length_take; vm_compute calcsize; lia].
  f_equal. unfold BinToCsv.HEADER_FMT, field.
  cbn [unpack_from unpack_one size]. rewrite !drop_drop.
  change (Z.to_nat 64) with 64%nat. cbn [Nat.add].
  rewrite <- (drop_0 (take 64 data)) at 1.
  rewrite !take_drop_take by lia. by rewrite drop_0.
Qed.

(** C5. [parse_header] raises its format error exactly when the input has
    fewer than 64 bytes, or the first 7 bytes of the magic are not the
    prefix, or the version is not 1, or the header size is not 64, or the
    record size is not 24; otherwise it returns the little-endian values of
    the two clock fields and of the flags. *)
Theorem parse_header_spec (data : list byte) :
  (BinToCsv.parse_header data = Raise ValueError ↔ header_rejected data)
  ∧ (¬ header_rejected data →
     BinToCsv.parse_header data
     = Ok {| BinToCsv.log_start_unix_us := le_uint (field 12 8 data);
             BinToCsv.log_start_monotonic_us := le_uint (field 20 8 data);
             BinToCsv.flags := le_uint (field 32 4 data) |}).
Proof.
  unfold BinToCsv.parse_header, header_rejected.
  destruct (Z.ltb_spec (Z.of_nat (List.length data)) BinToCsv.HEADER_SIZE) as [Hshort|Hlong];
    unfold BinToCsv.HEADER_SIZE in *.
  { split; [split; [left; lia | done] | intros Hnot; exfalso; apply Hnot; left; lia]. }
  rewrite unpack_header by lia. cbn [mbind res_bind].
  unfold BinToCsv.startswith, BinToCsv.VERSION, BinToCsv.RECORD_SIZE.
  change (List.length BinToCsv.MAGIC_PREFIX) with 7%nat.
  destruct (bool_decide_reflect (take 7 (field 0 8 data) = BinToCsv.MAGIC_PREFIX))
    as [Hmagic|Hmagic]; cbn [negb].
  2:{ split; [split; [tauto | done] | tauto]. }
  destruct (Z.eqb_spec (le_uint (field 8 2 data)) 1) as [Hv|Hv]; cbn [negb].
  2:{ split; [split; [tauto | done] | tauto]. }
  destruct (Z.eqb_spec (le_uint (field 10 2 data)) 64) as [Hh|Hh]; cbn [negb].
  2:{ split; [split; [tauto | done] | tauto]. }
  destruct (Z.eqb_spec (le_uint (field 28 4 data)) 24) as [Hr|Hr]; cbn [negb].
  2:{ split; [split; [tauto | done] | tauto]. }
  split; [|done].
  split; [done|]. intros [?|[?|[?|[?|?]]]]; (lia || done).
Qed.

(** The header of the scenario is accepted, with its two clocks. *)
Lemma parse_header_spec_witness :
  BinToCsv.parse_header header_example
  = Ok {| BinToCsv.log_start_unix_us := 1700000000000000;
          BinToCsv.log_start_monotonic_us := 500000;
          BinToCsv.flags := 0 |}.
Proof.
  apply (proj2 (parse_header_spec header_example)).
  unfold header_rejected.
  intros [H|[H|[H|[H|H]]]]; vm_compute in H; (lia || congruence).
Defined.

(** ** The capture container record *)

Lemma unpack_record (rec : list byte) :
  List.length rec = 24%nat →
  unpack BinToCsv.RECORD_FMT rec
  = Ok [VInt (le_uint (field 0 8 rec)); VInt (le_uint (field 8 4 rec));
        VInt (le_uint (field 12 1 rec)); VInt (le_uint (field 13 1 rec));
        VBytes (field 14 8 rec); VInt (le_uint (field 22 2 rec))].
Proof.
  intros Hlen. unfold unpack.
  destruct (decide _) as [_|Hne]; [|exfalso; apply Hne; by rewrite Hlen].
  f_equal. unfold BinToCsv.RECORD_FMT, field.
  cbn [unpack_from unpack_one size]. rewrite !drop_drop. by rewrite drop_0.
Qed.

(** C6, as the code has it. A record of the capture container is 24 bytes,
    little-endian: [timestamp_us] is the u64 at offset 0, [can_id] the u32
    at offset 8, [dlc] the byte at offset 12, [flags] the byte at offset 13,
    the payload the 8 bytes from offset 14; the u16 at offset 22 is read
    and dropped. *)
Theorem decode_record_layout (rec : list byte) :
  List.length rec = 24%nat →
  BinToCsv.decode_record rec
  = Ok {| BinToCsv.timestamp_us := le_uint (field 0 8 rec);
          BinToCsv.can_id := le_uint (field 8 4 rec);
          BinToCsv.dlc := le_uint (field 12 1 rec);
          BinToCsv.rec_flags := le_uint (field 13 1 rec);
          BinToCsv.payload := field 14 8 rec |}.
Proof.
  intros Hlen. unfold BinToCsv.decode_record. by rewrite unpack_record.
Qed.

Lemma decode_record_layout_witness :
  BinToCsv.decode_record record_example
  = Ok {| BinToCsv.timestamp_us := 500100;
          BinToCsv.can_id := 0x501D0;
          BinToCsv.dlc := 2;
          BinToCsv.rec_flags := 0;
          BinToCsv.payload := [x12; x34; x00; x00; x00; x00; x00; x00] |}.
Proof.
  apply (decode_record_layout record_example). reflexivity.
Defined.

(** The identifier read from [record_example] is not the 16-bit number at
    offset 8, and the length read is not the byte that follows it. *)
Lemma decode_record_counterexample :
  List.length record_example = 24%nat
  ∧ BinToCsv.can_id <$> BinToCsv.decode_record record_example = Ok 0x501D0
  ∧ BinToCsv.can_id <$> BinToCsv.decode_record record_example
    ≠ Ok (le_uint (field 8 2 record_example))
  ∧ BinToCsv.dlc <$> BinToCsv.decode_record record_example = Ok 2
  ∧ BinToCsv.dlc <$> BinToCsv.decode_record record_example
    ≠ Ok (le_uint (field 10 1 record_example)).
Proof. repeat split; vm_compute; congruence. Qed.

(** ** The timestamp resolver *)

Lemma cache_agrees_empty strftime : cache_agrees strftime ∅.
Proof. intros k v. by rewrite lookup_empty. Qed.

Lemma cache_agrees_insert strftime cache k v :
  cache_agrees strftime cache → strftime k = Ok v →
  cache_agrees strftime (<[k := v]> cache).
Proof.
  intros Hc Hk j w. rewrite lookup_insert.
  destruct (decide (k = j)) as [<-|]; [by intros [= <-] | apply Hc].
Qed.

Lemma format_datetime_resolve strftime unix mono ts cache :
  cache_agrees strftime cache →
  fst <$> BinToCsv.format_datetime strftime unix mono ts cache
  = resolve strftime unix mono ts.
Proof.
  intros Hc. unfold BinToCsv.format_datetime, resolve.
  destruct (unix =? 0); [reflexivity|].
  set (secs := (if ts <? mono then unix else unix + (ts - mono)) / 1000000).
  replace (if ts <? mono then strftime (unix / 1000000)
           else strftime ((unix + (ts - mono)) / 1000000))
    with (strftime secs) by (unfold secs; by destruct (ts <? mono)).
  destruct (cache !! secs) as [cached|] eqn:Hget.
  - by rewrite (Hc _ _ Hget).
  - by destruct (strftime secs).
Qed.

Lemma format_datetime_cache strftime unix mono ts cache s cache' :
  cache_agrees strftime cache →
  BinToCsv.format_datetime strftime unix mono ts cache = Ok (s, cache') →
  cache_agrees strftime cache'.
Proof.
  intros Hc. unfold BinToCsv.format_datetime.
  destruct (unix =? 0); [by intros [= _ <-]|].
  set (secs := (if ts <? mono then unix else unix + (ts - mono)) / 1000000).
  destruct (cache !! secs) as [cached|] eqn:Hget; [by intros [= _ <-]|].
  destruct (strftime secs) as [v|] eqn:Hfmt; cbn [mbind res_bind]; [|done].
  intros [= _ <-]. by apply cache_agrees_insert.
Qed.

(** C8. With a cache that holds only texts formatted earlier, the resolver
    returns the empty text when [log_start_unix_us] is 0; otherwise the
    formatted [log_start_unix_us] when the frame's timestamp is below
    [log_start_monotonic_us], and else the formatted
    [log_start_unix_us + (timestamp_us - log_start_monotonic_us)]; what is
    formatted is the microsecond value divided by 1,000,000, rounded down.
    The cache it leaves again holds only formatted texts. *)
Theorem format_datetime_spec (strftime : Z → res string)
  (log_start_unix_us log_start_monotonic_us timestamp_us : Z) (cache : gmap Z string) :
  cache_agrees strftime cache →
  fst <$> BinToCsv.format_datetime strftime log_start_unix_us log_start_monotonic_us
            timestamp_us cache
  = resolve strftime log_start_unix_us log_start_monotonic_us timestamp_us
  ∧ ∀ s cache',
      BinToCsv.format_datetime strftime log_start_unix_us log_start_monotonic_us
        timestamp_us cache = Ok (s, cache') →
      cache_agrees strftime cache'.
Proof.
  intros Hc. split; [by apply format_datetime_resolve|].
  intros s cache'. by apply format_datetime_cache.
Qed.

(** The scenario of the specification: a capture started at second
    1,700,000,000 of the wall clock and microsecond 500,000 of the device
    clock; a frame at microsecond 500,100 falls in the same second. *)
Lemma format_datetime_spec_witness :
  fst <$> BinToCsv.format_datetime decimal_clock 1700000000000000 500000 500100 ∅
  = Ok "1700000000"%string.
Proof.
  apply (format_datetime_spec decimal_clock 1700000000000000 500000 500100 ∅).
  apply cache_agrees_empty.
Defined.

(** ** The streaming converter *)

Lemma for_each_app {A B} (f : A → res B) (l1 l2 : list A) (ys : list B) :
  for_each f (l1 ++ l2) = Ok ys →
  ∃ ys1 ys2, for_each f l1 = Ok ys1 ∧ for_each f l2 = Ok ys2 ∧ ys = ys1 ++ ys2.
Proof.
  revert ys. induction l1 as [|x l1 IH]; intros ys Hys.
  - exists [], ys. by simpl in *.
  - cbn [for_each app] in *.
    destruct (f x) as [y|]; cbn [mbind res_bind] in *; [|done].
    destruct (for_each f (l1 ++ l2)) as [zs|] eqn:Hzs; cbn [mbind res_bind] in *; [|done].
    destruct (IH zs eq_refl) as (ys1 & ys2 & -> & H2 & ->).
    exists (y :: ys1), ys2. cbn [mbind res_bind]. by inversion Hys.
Qed.


Section Stream.

Variable strftime : Z → res string.
Variable header : BinToCsv.header.

Lemma write_record_spec rec st l :
  cache_agrees strftime (BinToCsv.datetime_cache st) →
  spec_line strftime header rec = Ok l →
  ∃ st', BinToCsv.write_record strftime header rec st = Ok st'
    ∧ BinToCsv.dst st' = BinToCsv.dst st ++ [l]
    ∧ BinToCsv.leftover st' = BinToCsv.leftover st
    ∧ BinToCsv.records_written st' = BinToCsv.records_written st + 1
    ∧ cache_agrees strftime (BinToCsv.datetime_cache st').
Proof.
  intros Hc. unfold spec_line, BinToCsv.write_record.
  destruct (BinToCsv.decode_record rec) as [r|]; cbn [mbind res_bind]; [|done].
  pose proof (format_datetime_resolve strftime
                (BinToCsv.log_start_unix_us header)
                (BinToCsv.log_start_monotonic_us header)
                (BinToCsv.timestamp_us r) _ Hc) as Hres.
  pose proof (format_datetime_cache strftime
                (BinToCsv.log_start_unix_us header)
                (BinToCsv.log_start_monotonic_us header)
                (BinToCsv.timestamp_us r) (BinToCsv.datetime_cache st)) as Hkeep.
  destruct (BinToCsv.format_datetime _ _ _ _ _) as [[d cache']|];
    cbn [fmap res_fmap fst] in Hres; rewrite <- Hres; cbn [mbind res_bind]; [|done].
  intros [= <-]. eexists. split; [reflexivity|]. cbn.
  repeat split. by eapply Hkeep.
Qed.

Lemma slice_record (data : list byte) (i : nat) :
  (24 * i + 24 <= List.length data)%nat →
  Py.slice data ((Z.of_nat i + 0) * BinToCsv.RECORD_SIZE)
    ((Z.of_nat i + 0) * BinToCsv.RECORD_SIZE + BinToCsv.RECORD_SIZE)
  = record_at data i.
Proof.
  intros Hi. unfold BinToCsv.RECORD_SIZE, record_at.
  rewrite slice_in_range by lia. f_equal. f_equal. lia.
Qed.

Lemma write_records_spec data : ∀ (indices : list nat) st ls,
  Forall (λ i, 24 * i + 24 <= List.length data)%nat indices →
  cache_agrees strftime (BinToCsv.datetime_cache st) →
  for_each (spec_line strftime header) (map (record_at data) indices) = Ok ls →
  ∃ st', BinToCsv.write_records strftime header data
           (map (λ i, Z.of_nat i + 0) indices) st = Ok st'
    ∧ BinToCsv.dst st' = BinToCsv.dst st ++ ls
    ∧ BinToCsv.leftover st' = BinToCsv.leftover st
    ∧ BinToCsv.records_written st'
      = BinToCsv.records_written st + Z.of_nat (List.length indices)
    ∧ cache_agrees strftime (BinToCsv.datetime_cache st').
Proof.
  induction indices as [|i indices IH]; intros st ls Hin Hc Hls.
  - injection Hls as <-. exists st. cbn. rewrite app_nil_r.
    repeat split; [lia | done].
  - inversion Hin as [|? ? Hi Hrest]; subst.
    cbn [map for_each] in Hls.
    destruct (spec_line strftime header (record_at data i)) as [l|] eqn:Hl;
      cbn [mbind res_bind] in Hls; [|done].
    destruct (for_each _ _) as [ls'|] eqn:Hls'; cbn [mbind res_bind] in Hls; [|done].
    injection Hls as <-.
    cbn [map BinToCsv.write_records]. rewrite slice_record by assumption.
    destruct (write_record_spec _ st l Hc Hl) as (st1 & -> & Hd1 & Hl1 & Hw1 & Hc1).
    cbn [mbind res_bind].
    destruct (IH st1 ls' Hrest Hc1 eq_refl) as (st2 & -> & Hd2 & Hl2 & Hw2 & Hc2).
    exists st2. rewrite Hd2, Hd1, Hl2, Hl1, Hw2, Hw1, <- app_assoc.
    repeat split; [|done]. cbn [List.length]. lia.
Qed.

End Stream.

Lemma record_at_app_l (X Y : list byte) (i : nat) :
  (24 * i + 24 <= List.length X)%nat →
  record_at (X ++ Y) i = record_at X i.
Proof.
  intros Hi. unfold record_at.
  rewrite drop_app_le by lia.
  rewrite take_app_le; [done|]. rewrite length_drop. lia.
Qed.

Lemma record_at_app_r (X Y : list byte) (n j : nat) :
  (24 * n <= List.length X)%nat →
  record_at (X ++ Y) (n + j) = record_at (drop (24 * n) X ++ Y) j.
Proof.
  intros Hn. unfold record_at.
  replace (24 * (n + j))%nat with (24 * n + 24 * j)%nat by lia.
  rewrite <- drop_drop. by rewrite (drop_app_le X Y) by lia.
Qed.

Lemma whole_records_app (X Y : list byte) :
  whole_records (X ++ Y)
  = whole_records X
    ++ whole_records (drop (24 * (List.length X / 24)) X ++ Y).
Proof.
  unfold whole_records.
  set (n := (List.length X / 24)%nat).
  assert (Hn : (24 * n <= List.length X < 24 * n + 24)%nat).
  { pose proof (Nat.div_mod_eq (List.length X) 24).
    pose proof (Nat.mod_upper_bound (List.length X) 24). unfold n. lia. }
  rewrite !length_app, length_drop.
  replace (List.length X + List.length Y)%nat
    with (n * 24 + (List.length X - 24 * n + List.length Y))%nat by lia.
  rewrite Nat.div_add_l by lia.
  rewrite seq_app, map_app. f_equal.
  - apply map_ext_in. intros i Hi%in_seq. apply record_at_app_l. lia.
  - set (m := ((List.length X - 24 * n + List.length Y) / 24)%nat).
    replace (seq (0 + n) m) with (map (λ x, n + x)%nat (seq 0 m))
      by (change (map (λ x, n + x)%nat (seq 0 m)) with ((λ x, n + x)%nat <$> seq 0 m);
          rewrite fmap_add_seq; f_equal; lia).
    rewrite map_map. apply map_ext. intros j. apply record_at_app_r. lia.
Qed.

Lemma whole_records_short (X : list byte) :
  (List.length X < 24)%nat → whole_records X = [].
Proof.
  intros Hlt. unfold whole_records. by rewrite Nat.div_small.
Qed.

Lemma div24_split (x y : nat) :
  ((x + y) / 24 = x / 24 + (x - 24 * (x / 24) + y) / 24)%nat.
Proof.
  pose proof (Nat.div_mod_eq x 24).
  replace (x + y)%nat with (x / 24 * 24 + (x - 24 * (x / 24) + y))%nat at 1 by lia.
  by rewrite Nat.div_add_l by lia.
Qed.

Lemma rest_lt_24 (x : nat) : (x - 24 * (x / 24) < 24)%nat.
Proof.
  pose proof (Nat.div_mod_eq x 24).
  pose proof (Nat.mod_upper_bound x 24). lia.
Qed.

(** With a formatter that never raises, the line of every whole record can
    be written. *)
Lemma spec_lines_defined (strftime : Z → res string) (header : BinToCsv.header)
  (data : list byte) :
  (∀ s, ∃ t, strftime s = Ok t) →
  ∃ ls, for_each (spec_line strftime header) (whole_records data) = Ok ls.
Proof.
  intros Htotal. unfold whole_records.
  assert (Hall : Forall (λ i, 24 * i + 24 <= List.length data)%nat
                   (seq 0 (List.length data / 24))).
  { apply Forall_forall. intros i Hi%list_elem_of_In%in_seq.
    pose proof (Nat.div_mod_eq (List.length data) 24). lia. }
  induction Hall as [|i indices Hi _ [ls IH]]; [by exists []|].
  assert (Hlen : List.length (record_at data i) = 24%nat).
  { unfold record_at. rewrite length_take, length_drop. lia. }
  assert (Hline : ∃ l, spec_line strftime header (record_at data i) = Ok l).
  { unfold spec_line, BinToCsv.decode_record. rewrite (unpack_record _ Hlen).
    cbn [mbind res_bind]. unfold resolve.
    repeat match goal with
           | |- context [if ?b then _ else _] => destruct b
           | |- context [strftime ?s] =>
               let t := fresh "t" in let Ht := fresh "Ht" in
               destruct (Htotal s) as [t Ht]; rewrite Ht
           end; cbn [mbind res_bind]; eauto. }
  destruct Hline as [l Hl].
  exists (l :: ls). cbn [map for_each]. by rewrite Hl, IH.
Qed.

Section Chunks.

Variable strftime : Z → res string.
Variable header : BinToCsv.header.

(** The record loop, from any state it can be in: whatever way the stream
    is cut into non-empty reads, it writes the lines of the whole records
    of what is left over followed by the reads, and keeps the rest. *)
Lemma convert_chunks_spec (chunks : list (list byte)) : ∀ st ls,
  Forall (λ c, c ≠ []) chunks →
  (List.length (BinToCsv.leftover st) < 24)%nat →
  cache_agrees strftime (BinToCsv.datetime_cache st) →
  for_each (spec_line strftime header)
    (whole_records (BinToCsv.leftover st ++ concat chunks)) = Ok ls →
  ∃ st', BinToCsv.convert_chunks strftime header chunks st = Ok st'
    ∧ BinToCsv.dst st' = BinToCsv.dst st ++ ls
    ∧ BinToCsv.leftover st'
      = drop (24 * (List.length (BinToCsv.leftover st ++ concat chunks) / 24))
          (BinToCsv.leftover st ++ concat chunks)
    ∧ BinToCsv.records_written st'
      = BinToCsv.records_written st
        + Z.of_nat (List.length (BinToCsv.leftover st ++ concat chunks) / 24)
    ∧ cache_agrees strftime (BinToCsv.datetime_cache st').
Proof.
  induction chunks as [|chunk chunks IH]; intros st ls Hne Hlt Hc Hls.
  - cbn [concat] in *. rewrite app_nil_r in *.
    rewrite whole_records_short in Hls by assumption. injection Hls as <-.
    exists st. rewrite Nat.div_small by assumption.
    rewrite app_nil_r. repeat split; [lia | done].
  - inversion Hne as [|? ? Hchunk Hrest]; subst.
    destruct chunk as [|b chunk]; [done|].
    set (data := BinToCsv.leftover st ++ b :: chunk) in *.
    cbn [concat] in *.
    assert (Htotal : BinToCsv.leftover st ++ (b :: chunk) ++ concat chunks
                     = data ++ concat chunks) by (unfold data; by rewrite <- app_assoc).
    rewrite Htotal in *. clear Htotal.
    rewrite whole_records_app in Hls.
    apply for_each_app in Hls as (ls1 & ls2 & Hls1 & Hls2 & ->).
    set (n := (List.length data / 24)%nat) in *.
    cbn [BinToCsv.convert_chunks].
    fold data.
    assert (Hcount : Z.of_nat (List.length data) / BinToCsv.RECORD_SIZE = Z.of_nat n).
    { unfold n, BinToCsv.RECORD_SIZE. by rewrite Nat2Z.inj_div. }
    rewrite Hcount.
    assert (Hleft : Py.slice data (Z.of_nat n * BinToCsv.RECORD_SIZE)
                      (Z.of_nat (List.length data)) = drop (24 * n) data).
    { pose proof (Nat.div_mod_eq (List.length data) 24) as Hdm. fold n in Hdm.
      unfold BinToCsv.RECORD_SIZE.
      replace (Z.of_nat (List.length data))
        with (Z.of_nat n * 24 + (Z.of_nat (List.length data) - Z.of_nat n * 24)) at 1
        by lia.
      rewrite slice_in_range by lia.
      replace (Z.to_nat (Z.of_nat n * 24)) with (24 * n)%nat by lia.
      apply take_ge. rewrite length_drop. lia. }
    rewrite Hleft.
    unfold seqZ. rewrite Nat2Z.id.
    change ((λ i : nat, Z.of_nat i + 0) <$> seq 0 n)
      with (map (λ i : nat, Z.of_nat i + 0) (seq 0 n)).
    edestruct (write_records_spec strftime header data (seq 0 n)
                 {| BinToCsv.dst := BinToCsv.dst st;
                    BinToCsv.leftover := drop (24 * n) data;
                    BinToCsv.records_written := BinToCsv.records_written st;
                    BinToCsv.datetime_cache := BinToCsv.datetime_cache st |}) as
      (st2 & Hrun & Hd2 & Hl2 & Hw2 & Hc2); [| |exact Hls1|].
    { apply Forall_forall. intros i Hi%list_elem_of_In%in_seq.
      pose proof (Nat.div_mod_eq (List.length data) 24) as Hdm. fold n in Hdm. lia. }
    { exact Hc. }
    rewrite Hrun. cbn [mbind res_bind].
    cbn [BinToCsv.dst BinToCsv.leftover BinToCsv.records_written] in Hd2, Hl2, Hw2.
    destruct (IH st2 ls2 Hrest) as (st3 & -> & Hd3 & Hl3 & Hw3 & Hc3).
    { rewrite Hl2, length_drop. apply rest_lt_24. }
    { exact Hc2. }
    { by rewrite Hl2. }
    exists st3. split; [reflexivity|].
    rewrite Hd3, Hd2, Hl3, Hw3, Hw2, Hl2, <- app_assoc, length_seq.
    rewrite !length_app, length_drop.
    rewrite (div24_split (List.length data) (List.length (concat chunks))).
    fold n. repeat split; [| lia | done].
    rewrite Nat.mul_add_distr_l, <- drop_drop.
    by rewrite (drop_app_le data) by (pose proof (Nat.div_mod_eq (List.length data) 24)
                                       as Hdm; fold n in Hdm; lia).
Qed.

End Chunks.

Lemma reads_spec (size : nat) : (0 < size)%nat → ∀ (turns : nat) (rest : list byte),
  (List.length rest <= turns)%nat →
  concat (BinToCsv.reads turns size rest) = rest
  ∧ Forall (λ c, c ≠ []) (BinToCsv.reads turns size rest).
Proof.
  intros Hsize. induction turns as [|turns IH]; intros rest Hlen.
  - destruct rest; [by split | simpl in Hlen; lia].
  - destruct rest as [|b rest]; [by split|].
    cbn [BinToCsv.reads].
    destruct (IH (drop size (b :: rest))) as [Hcat Hne].
    { rewrite length_drop. simpl in *. lia. }
    split.
    + cbn [concat]. by rewrite Hcat, take_drop.
    + constructor; [|assumption].
      destruct size; [lia | done].
Qed.

(** The converter on a stream cut into non-empty reads, in terms of the
    stream alone. *)
Lemma convert_records_total (strftime : Z → res string) (header : BinToCsv.header)
  (chunks : list (list byte)) (ls : list string) :
  Forall (λ c, c ≠ []) chunks →
  for_each (spec_line strftime header) (whole_records (concat chunks)) = Ok ls →
  BinToCsv.convert_records strftime header chunks
  = Ok {| BinToCsv.lines := ls;
          BinToCsv.written := Z.of_nat (List.length (concat chunks) / 24);
          BinToCsv.truncated :=
            match drop (24 * (List.length (concat chunks) / 24)) (concat chunks) with
            | [] => None
            | _ => Some (Z.of_nat (List.length (concat chunks))
                         - 24 * Z.of_nat (List.length (concat chunks) / 24))
            end |}.
Proof.
  intros Hne Hls. unfold BinToCsv.convert_records.
  edestruct (convert_chunks_spec strftime header chunks) as
    (st & -> & Hd & Hl & Hw & _); [exact Hne| | |exact Hls|].
  { cbn. lia. }
  { cbn. apply cache_agrees_empty. }
  cbn [mbind res_bind].
  cbn [BinToCsv.dst BinToCsv.leftover BinToCsv.records_written app] in Hd, Hl, Hw.
  rewrite Hd, Hw, Hl. f_equal. f_equal.
  destruct (drop _ _) eqn:Hdrop; [done|].
  rewrite <- Hdrop, length_drop. f_equal.
  pose proof (Nat.div_mod_eq (List.length (concat chunks)) 24). lia.
Qed.

Lemma stream_parts (n : nat) (k R : Z) :
  Z.of_nat n = k * 24 + R → 0 <= R < 24 →
  Z.of_nat (n / 24) = k ∧ Z.of_nat n - 24 * Z.of_nat (n / 24) = R.
Proof.
  intros Hn HR.
  assert (Hk : Z.of_nat (n / 24) = k).
  { rewrite Nat2Z.inj_div, Hn. change (Z.of_nat 24) with 24.
    rewrite Z.div_add_l by lia. rewrite Z.div_small by lia. lia. }
  split; [assumption | lia].
Qed.

Lemma leftover_report (data : list byte) (k R : Z) :
  Z.of_nat (List.length data) = k * 24 + R → 0 <= R < 24 →
  match drop (24 * (List.length data / 24)) data with
  | [] => None
  | _ => Some (Z.of_nat (List.length data) - 24 * Z.of_nat (List.length data / 24))
  end = if R =? 0 then None else Some R.
Proof.
  intros Hlen HR. destruct (stream_parts _ _ _ Hlen HR) as [Hk Hrest].
  destruct (drop _ _) eqn:Hdrop.
  - apply (f_equal List.length) in Hdrop. rewrite length_drop in Hdrop.
    cbn [List.length] in Hdrop.
    pose proof (Nat.div_mod_eq (List.length data) 24).
    destruct (Z.eqb_spec R 0); [done | lia].
  - apply (f_equal List.length) in Hdrop. rewrite length_drop in Hdrop.
    cbn [List.length] in Hdrop.
    destruct (Z.eqb_spec R 0); [lia | by rewrite Hrest].
Qed.



(** ** The frame parsers *)








(** ** The CSV to compact-record converter *)

Lemma py_int_raises base s e : Py.int base s = Raise e → e = ValueError.
Proof. unfold Py.int. destruct (Py.signed_literal _ _); congruence. Qed.

Lemma byte_cell_value (row : csv_row) (i : Z) :
  CsvToBin.byte_cell row i = Ok (byte_value row i).
Proof.
  unfold CsvToBin.byte_cell, byte_of_text, byte_value. cbv zeta.
  destruct (decide _) as [|_]; [done|].
  destruct (Py.int 16 _) as [z|e] eqn:H16; [done|].
  apply py_int_raises in H16 as ->.
  destruct (Py.int 10 _) as [z|e] eqn:H10; [done|].
  by apply py_int_raises in H10 as ->.
Qed.

Lemma for_each_total {A B} (f : A → res B) (g : A → B) (l : list A) :
  (∀ x, f x = Ok (g x)) → for_each f l = Ok (map g l).
Proof.
  intros Hf. induction l as [|x l IH]; [done|].
  cbn [for_each map]. by rewrite Hf, IH.
Qed.



Lemma le_bytes_length n z : List.length (le_bytes n z) = n.
Proof. revert z. induction n as [|n IH]; intros z; cbn; [done | by rewrite IH]. Qed.




(** A byte cell whose number does not fit a byte is not a cell that cannot
    be read: [struct.pack] refuses it and the conversion stops. *)
Remark convert_out_of_range :
  CsvToBin.byte_cell row_wide_byte 1 = Ok 256
  ∧ CsvToBin.convert [row_wide_byte] = Raise StructError.
Proof. split; vm_compute; reflexivity. Qed.

(** ** Whole files *)

(** [convert_file] on a file with a valid header: the lines of the whole
    records that follow the header, and a report of what is left over. *)
Corollary convert_file_spec (strftime : Z → res string) (input : list byte)
  (header : BinToCsv.header) (k R : Z) (ls : list string) :
  BinToCsv.parse_header (take 64 input) = Ok header →
  Z.of_nat (List.length (drop 64 input)) = k * 24 + R →
  0 <= R < 24 →
  for_each (spec_line strftime header) (whole_records (drop 64 input)) = Ok ls →
  BinToCsv.convert_file strftime input
  = Ok {| BinToCsv.lines := ls;
          BinToCsv.written := k;
          BinToCsv.truncated := if R =? 0 then None else Some R |}.
Proof.
  intros Hhdr Hlen HR Hls. unfold BinToCsv.convert_file.
  change (Z.to_nat BinToCsv.HEADER_SIZE) with 64%nat. rewrite Hhdr.
  cbn [mbind res_bind].
  set (size := Z.to_nat (BinToCsv.RECORD_SIZE * 1024)).
  destruct (reads_spec size) with (turns := List.length (drop 64 input))
                                  (rest := drop 64 input) as [Hcat Hne];
    [unfold size, BinToCsv.RECORD_SIZE; lia | lia |].
  rewrite (convert_records_total strftime header _ ls) by (by rewrite ?Hcat).
  rewrite Hcat. destruct (stream_parts _ _ _ Hlen HR) as [Hk _].
  by rewrite (leftover_report _ k R), Hk.
Qed.

(** * Further properties of the code *)

(** ** The extractor: range of its results, and fields without bits *)

Lemma extract_bits_in_range data o l signed :
  Forall is_byte data →
  0 <= o → 1 <= l → o + l <= 8 * Z.of_nat (List.length data) →
  extract_bits data o l signed
  = Ok (Some (if signed then twos_complement l (bit_slice data o l)
              else bit_slice data o l)).
Proof.
  intros Hdata Ho Hl Hlen. unfold extract_bits.
  destruct (bit_string_bytes data Hdata) as (Hn & _ & _).
  rewrite Hn. destruct (Z.ltb_spec (8 * Z.of_nat (List.length data)) (o + l)); [lia|].
  rewrite extract_bits_unsigned by assumption. cbn [mbind res_bind].
  destruct signed; [|reflexivity].
  rewrite (shl_one (l - 1)), (shl_one l) by lia.
  cbn [mbind res_bind]. unfold twos_complement.
  by destruct (2 ^ (l - 1) <=? bit_slice data o l).
Qed.

Lemma bit_slice_bounds data o l : 0 <= l → 0 <= bit_slice data o l < 2 ^ l.
Proof.
  intros Hl. unfold bit_slice. apply Z.mod_pos_bound.
  apply Z.pow_pos_nonneg; lia.
Qed.

Lemma twos_complement_bounds l u :
  1 <= l → 0 <= u < 2 ^ l →
  - 2 ^ (l - 1) <= twos_complement l u < 2 ^ (l - 1).
Proof.
  intros Hl Hu. unfold twos_complement.
  assert (Hpow : 2 ^ l = 2 * 2 ^ (l - 1)).
  { replace l with (1 + (l - 1)) at 1 by lia. by rewrite Z.pow_add_r by lia. }
  destruct (Z.leb_spec (2 ^ (l - 1)) u); lia.
Qed.

(** A field inside a payload of bytes always gives a value: between 0 and
    [2^l - 1] when unsigned, between [-2^(l-1)] and [2^(l-1) - 1] when
    signed. *)
Theorem extract_bits_bounds (data : list Z) (o l : Z) (signed : bool) :
  Forall is_byte data →
  0 <= o → 1 <= l → o + l <= 8 * Z.of_nat (List.length data) →
  ∃ raw, extract_bits data o l signed = Ok (Some raw)
         ∧ if signed then - 2 ^ (l - 1) <= raw < 2 ^ (l - 1)
           else 0 <= raw < 2 ^ l.
Proof.
  intros Hdata Ho Hl Hlen.
  rewrite extract_bits_in_range by assumption.
  pose proof (bit_slice_bounds data o l ltac:(lia)) as Hb.
  eexists. split; [reflexivity|].
  destruct signed; [by apply twos_complement_bounds | assumption].
Qed.

Lemma extract_bits_bounds_witness :
  ∃ raw, extract_bits [0xFF; 0x85] 8 8 true = Ok (Some raw)
         ∧ - 2 ^ (8 - 1) <= raw < 2 ^ (8 - 1).
Proof.
  apply (extract_bits_bounds [0xFF; 0x85] 8 8 true).
  - repeat constructor; unfold is_byte; lia.
  - lia.
  - lia.
  - simpl. lia.
Defined.

Lemma slice_empty {A} (s : list A) (o l : Z) :
  0 <= o → l <= 0 → 0 <= o + l → Py.slice s o (o + l) = [].
Proof.
  intros Ho Hl Hol. unfold Py.slice, Py.clamp_index. cbv zeta.
  destruct (Z.ltb_spec o 0); [lia|].
  destruct (Z.ltb_spec (o + l) 0); [lia|].
  replace (Z.to_nat (Z.min (o + l) (Z.of_nat (List.length s))
                      - Z.min o (Z.of_nat (List.length s)))) with 0%nat by lia.
  apply take_0.
Qed.

(** A field of no bits (or of a negative number of bits) that passes the
    range check is not a miss but an error: the empty text is no number. *)
Theorem extract_bits_no_bits (data : list Z) (o l : Z) (signed : bool) :
  Forall is_byte data →
  0 <= o → l <= 0 → 0 <= o + l → o + l <= 8 * Z.of_nat (List.length data) →
  extract_bits data o l signed = Raise ValueError.
Proof.
  intros Hdata Ho Hl Hol Hlen. unfold extract_bits.
  destruct (bit_string_bytes data Hdata) as (Hn & _ & _).
  rewrite Hn. destruct (Z.ltb_spec (8 * Z.of_nat (List.length data)) (o + l)); [lia|].
  by rewrite slice_empty.
Qed.

Lemma extract_bits_no_bits_witness :
  extract_bits [0x1A; 0x2B] 4 0 false = Raise ValueError.
Proof.
  apply (extract_bits_no_bits [0x1A; 0x2B] 4 0 false).
  - repeat constructor; unfold is_byte; lia.
  - lia.
  - lia.
  - lia.
  - simpl. lia.
Defined.

(** ** Definitions that cannot make the decoder raise *)

Lemma all_from_spec (p : Z → bool) (n : nat) : ∀ z x,
  all_from n z p = true → z <= x < z + Z.of_nat n → p x = true.
Proof.
  induction n as [|n IH]; intros z x Hall Hx; [lia|].
  cbn [all_from] in Hall. apply andb_true_iff in Hall as [Hz Hrest].
  destruct (decide (x = z)) as [->|Hne]; [assumption|].
  apply (IH (z + 1)); [assumption | lia].
Qed.

Lemma small_ints_convert :
  all_from (Z.to_nat 98304) (-32768) (λ z, is_ok (float_of_int z)) = true.
Proof. vm_compute. reflexivity. Qed.

Lemma float_of_small_int z :
  -32768 <= z < 65536 → ∃ f, float_of_int z = Ok f.
Proof.
  intros Hz.
  pose proof (all_from_spec _ _ _ z small_ints_convert ltac:(lia)) as Hok.
  cbv beta in Hok. destruct (float_of_int z); [eauto | discriminate].
Qed.

Lemma pow_le_16 l : 1 <= l <= 16 → 2 ^ l <= 65536 ∧ 2 ^ (l - 1) <= 32768.
Proof.
  intros Hl. split.
  - change 65536 with (2 ^ 16). apply Z.pow_le_mono_r; lia.
  - change 32768 with (2 ^ 15). apply Z.pow_le_mono_r; lia.
Qed.

Lemma safe_decode_signal data sd :
  safe_sd sd = true → Forall is_byte data →
  ∃ r, decode_signal data sd = Ok r
       ∧ (default 0 (sd_bix sd) + default 8 (sd_len sd)
          <= 8 * Z.of_nat (List.length data) → is_Some r).
Proof.
  unfold safe_sd. intros Hsafe Hdata.
  repeat (apply andb_true_iff in Hsafe as [Hsafe ?]).
  set (o := default 0 (sd_bix sd)) in *. set (l := default 8 (sd_len sd)) in *.
  assert (Ho : 0 <= o) by lia. assert (Hl : 1 <= l <= 16) by lia.
  destruct (Z.le_gt_cases (o + l) (8 * Z.of_nat (List.length data))) as [Hin|Hout].
  - destruct (pow_le_16 l Hl) as [Hp Hq].
    pose proof (bit_slice_bounds data o l ltac:(lia)) as Hb.
    pose proof (twos_complement_bounds l _ ltac:(lia) Hb) as Ht.
    unfold decode_signal. fold o l.
    rewrite extract_bits_in_range by (assumption || lia).
    cbn [mbind res_bind].
    set (raw := if default false (sd_sign sd) then _ else _).
    destruct (float_of_small_int raw) as [f ->].
    { unfold raw. destruct (default false (sd_sign sd)); lia. }
    cbn [mbind res_bind].
    unfold float_ok, div_ok, float_div in *.
    destruct (sd_add sd) as [a|]; [destruct (to_float a); [|done]|];
      cbn [mbind res_bind];
      (destruct (sd_mul sd) as [m|]; [destruct (to_float m); [|done]|];
       cbn [mbind res_bind];
       (destruct (sd_div sd) as [d|];
        [destruct (to_float d) as [d'|]; [|done]; cbn [mbind res_bind];
         destruct (PrimFloat.eqb d' PrimFloat.zero); [done|]|];
        cbn [mbind res_bind]; eauto)).
  - exists None. split; [|lia].
    apply decode_signal_miss. unfold sd_extract.
    by apply extract_bits_out_of_range.
Qed.

(** A frame whose definitions each describe a field of 1 to 16 bits at an
    offset that is not negative, with numeric parameters and a divisor that
    is not zero, is decoded without an exception whatever bytes it holds:
    the result lists what each definition gives, and a definition whose
    field lies inside the payload does give a result. *)
Theorem decode_message_safe (defs : gmap Z merged_def) (can_id : Z)
  (can_def : merged_def) (data : list Z) :
  defs !! can_id = Some can_def →
  Forall (λ sd, safe_sd sd = true) (signals can_def) →
  Forall is_byte data →
  decode_message defs can_id data
  = Ok (Some {| dm_name := name can_def;
                dm_signals := omap (decoded data) (signals can_def) |})
  ∧ ∀ sd, sd ∈ signals can_def →
      default 0 (sd_bix sd) + default 8 (sd_len sd)
      <= 8 * Z.of_nat (List.length data) →
      is_Some (decoded data sd).
Proof.
  intros Hdef Hsafe Hdata. split.
  - unfold decode_message. rewrite Hdef.
    rewrite decode_signals_omap; [done|].
    eapply Forall_impl; [exact Hsafe|]. intros sd Hsd.
    destruct (safe_decode_signal data sd Hsd Hdata) as (r & Hr & _). eauto.
  - intros sd Hin Hfits. rewrite Forall_forall in Hsafe.
    destruct (safe_decode_signal data sd (Hsafe sd Hin) Hdata) as (r & Hr & Hsome).
    unfold decoded. rewrite Hr. by apply Hsome.
Qed.

Lemma decode_message_safe_witness :
  decode_message {[ 0x4A7 := tpms_temperature ]} 0x4A7 [90; 91]
  = Ok (Some {| dm_name := Some "TPMS Temperature"%string;
                dm_signals := omap (decoded [90; 91]) (signals tpms_temperature) |}).
Proof.
  apply (decode_message_safe {[ 0x4A7 := tpms_temperature ]} 0x4A7
           tpms_temperature [90; 91]).
  - reflexivity.
  - repeat constructor.
  - repeat constructor; unfold is_byte; lia.
Defined.

Lemma omap_all_Some {A B} (f : A → option B) (l : list A) :
  Forall (λ x, is_Some (f x)) l → List.length (omap f l) = List.length l.
Proof.
  induction 1 as [|x l [y Hy] _ IH]; [done|].
  cbn [omap list_omap]. rewrite Hy. cbn. by rewrite IH.
Qed.

Lemma manual_table_checked :
  forallb (λ item, forallb (λ sd, safe_sd sd && within_frame sd)
                     (signals (from_manual item.2))) manual_table = true.
Proof. vm_compute. reflexivity. Qed.

Lemma builtin_table_checked (can_id : Z) (defn : message_def) :
  manual_can_ids !! can_id = Some defn →
  forallb (λ sd, safe_sd sd && within_frame sd) (signals (from_manual defn)) = true.
Proof.
  intros Hdef. apply elem_of_list_to_map_2 in Hdef.
  pose proof manual_table_checked as Hall. rewrite forallb_forall in Hall.
  apply (Hall (can_id, defn)). by apply list_elem_of_In.
Qed.

(** The built-in table alone: every frame of 8 bytes with a built-in
    identifier is decoded without an exception, and gives one result for
    each signal the table defines for that identifier. *)
Theorem builtin_frames_decode (can_id : Z) (defn : message_def) (data : list Z) :
  manual_can_ids !! can_id = Some defn →
  Forall is_byte data → List.length data = 8%nat →
  ∃ sigs,
    decode_message (merge_signal_definitions manual_can_ids ∅) can_id data
    = Ok (Some {| dm_name := Some (default "Unknown"%string (md_name defn));
                  dm_signals := sigs |})
    ∧ List.length sigs = List.length (default [] (md_signals defn)).
Proof.
  intros Hdef Hdata Hlen.
  pose proof (builtin_table_checked can_id defn Hdef) as Hchk.
  rewrite forallb_forall in Hchk.
  assert (Hsafe : ∀ sd, sd ∈ signals (from_manual defn) →
                        safe_sd sd = true ∧ within_frame sd = true).
  { intros sd Hin. apply andb_true_iff, Hchk. by apply list_elem_of_In. }
  assert (Hok : Forall (λ sd, is_Some (decoded data sd)) (signals (from_manual defn))).
  { apply Forall_forall. intros sd Hin. destruct (Hsafe sd Hin) as [Hs Hw].
    destruct (safe_decode_signal data sd Hs Hdata) as (r & Hr & Hsome).
    unfold decoded. rewrite Hr. apply Hsome.
    unfold within_frame in Hw. rewrite Hlen. lia. }
  exists (omap (decoded data) (signals (from_manual defn))). split.
  - unfold decode_message. rewrite merge_lookup, Hdef, lookup_empty.
    cbn [merged_entry]. rewrite decode_signals_omap; [done|].
    apply Forall_forall. intros sd Hin. destruct (Hsafe sd Hin) as [Hs _].
    destruct (safe_decode_signal data sd Hs Hdata) as (r & Hr & _). eauto.
  - by rewrite omap_all_Some.
Qed.

Lemma builtin_frames_decode_witness :
  ∃ sigs,
    decode_message (merge_signal_definitions manual_can_ids ∅) 0x1AA
      [0xFF; 0x85; 0; 0; 0; 0; 0; 0]
    = Ok (Some {| dm_name := Some "Steering Angle"%string; dm_signals := sigs |})
    ∧ List.length sigs = 1%nat.
Proof.
  apply (builtin_frames_decode 0x1AA
           (builtin_message "Steering Angle"
              [ builtin_signal "Steering Angle" 0 16 (Some true) None None
                  (Some (PInt 10)) "degrees" ])
           [0xFF; 0x85; 0; 0; 0; 0; 0; 0]).
  - reflexivity.
  - repeat constructor; unfold is_byte; lia.
  - reflexivity.
Defined.

(** ** Decoding with the merged registry *)

Lemma decode_signals_inv data sigs : ∀ acc out,
  decode_signals data sigs acc = Ok out →
  Forall (λ sd, ∃ r, decode_signal data sd = Ok r) sigs
  ∧ out = acc ++ omap (decoded data) sigs.
Proof.
  induction sigs as [|sd sigs IH]; intros acc out Hrun.
  - injection Hrun as <-. split; [constructor | by rewrite app_nil_r].
  - cbn [decode_signals] in Hrun.
    destruct (decode_signal data sd) as [r|] eqn:Hr; cbn [mbind res_bind] in Hrun; [|done].
    apply IH in Hrun as [Hrest ->]. split; [constructor; eauto|].
    cbn [omap list_omap]. unfold decoded at 2. rewrite Hr.
    destruct r; [by rewrite <- app_assoc | done].
Qed.

Lemma decode_message_inv defs can_id data m :
  decode_message defs can_id data = Ok (Some m) →
  ∃ can_def, defs !! can_id = Some can_def
    ∧ Forall (λ sd, ∃ r, decode_signal data sd = Ok r) (signals can_def)
    ∧ m = {| dm_name := name can_def;
             dm_signals := omap (decoded data) (signals can_def) |}.
Proof.
  unfold decode_message. destruct (defs !! can_id) as [can_def|]; [|done].
  destruct (decode_signals data (signals can_def) []) as [out|] eqn:Hout;
    cbn [mbind res_bind]; [|done].
  intros [= <-]. apply decode_signals_inv in Hout as [Hok ->].
  exists can_def. by repeat split.
Qed.

(** An identifier of both tables, for a frame that each table alone
    decodes: the merged registry gives the results of the built-in
    definitions followed by those of the external ones, under the built-in
    name unless that name is empty. *)
Theorem decode_message_merged (manual obdb : gmap Z message_def) (can_id : Z)
  (data : list Z) (m1 m2 : decoded_message) :
  decode_message (merge_signal_definitions manual ∅) can_id data = Ok (Some m1) →
  decode_message (merge_signal_definitions ∅ obdb) can_id data = Ok (Some m2) →
  ∃ nm,
    decode_message (merge_signal_definitions manual obdb) can_id data
    = Ok (Some {| dm_name := nm; dm_signals := dm_signals m1 ++ dm_signals m2 |})
    ∧ (dm_name m1 ≠ Some ""%string → nm = dm_name m1).
Proof.
  intros H1 H2.
  apply decode_message_inv in H1 as (d1 & Hd1 & Hok1 & ->).
  apply decode_message_inv in H2 as (d2 & Hd2 & Hok2 & ->).
  rewrite merge_lookup, lookup_empty in Hd1, Hd2.
  destruct (manual !! can_id) as [b|] eqn:Hb; [|done].
  destruct (obdb !! can_id) as [e|] eqn:He; [|done].
  cbn [merged_entry] in Hd1, Hd2. injection Hd1 as <-. injection Hd2 as <-.
  eexists. split.
  - unfold decode_message. rewrite merge_lookup, Hb, He. cbn [merged_entry signals name].
    rewrite decode_signals_omap by (apply Forall_app; split; assumption).
    cbn [mbind res_bind app from_manual from_obdb signals dm_signals].
    by rewrite omap_app.
  - cbn [dm_name name from_manual name_or]. intros Hne.
    by destruct (decide _) as [Heq|]; [rewrite Heq in Hne|].
Qed.

Lemma decode_message_merged_witness :
  ∃ nm,
    decode_message (merge_signal_definitions manual_example obdb_example) 0x2C1
      [162; 7; 9]
    = Ok (Some {| dm_name := nm;
                  dm_signals :=
                    [ {| ds_raw := 162; ds_value := 122%float;
                         ds_unit := "celsius"; ds_name := "Coolant Temp" |};
                      {| ds_raw := 7; ds_value := 7%float;
                         ds_unit := "raw"; ds_name := "Load" |} ]
                    ++ [ {| ds_raw := 9; ds_value := 9%float;
                            ds_unit := "raw"; ds_name := "Oil" |} ] |})
    ∧ (Some "Engine Data"%string ≠ Some ""%string → nm = Some "Engine Data"%string).
Proof.
  refine (decode_message_merged manual_example obdb_example 0x2C1 [162; 7; 9]
            {| dm_name := Some "Engine Data"%string;
               dm_signals :=
                 [ {| ds_raw := 162; ds_value := 122%float;
                      ds_unit := "celsius"; ds_name := "Coolant Temp" |};
                   {| ds_raw := 7; ds_value := 7%float;
                      ds_unit := "raw"; ds_name := "Load" |} ] |}
            {| dm_name := Some "ENGINE (22 1F)"%string;
               dm_signals :=
                 [ {| ds_raw := 9; ds_value := 9%float;
                      ds_unit := "raw"; ds_name := "Oil" |} ] |} _ _).
  - vm_compute. reflexivity.
  - vm_compute. reflexivity.
Defined.

(** ** Definitions from an OBDb file *)

Lemma build_obdb_command_entry acc cmd :
  build_obdb_command acc cmd
  = match obdb_entry cmd with
    | Some (can_id, defn) => <[can_id := defn]> acc
    | None => acc
    end.
Proof.
  unfold build_obdb_command, obdb_entry, truthy.
  destruct (cmd_rax cmd) as [rax|]; [|reflexivity].
  change (default ""%string (Some rax)) with rax.
  destruct (decide (rax = ""%string)) as [->|Hne].
  - by rewrite bool_decide_eq_true_2.
  - rewrite bool_decide_eq_false_2 by done. cbn [negb].
    destruct (Py.int 16 rax); [|reflexivity].
    destruct (default [] (cmd_signals cmd)); reflexivity.
Qed.

Lemma build_obdb_snoc commands cmd :
  build_obdb_definitions (commands ++ [cmd])
  = build_obdb_command (build_obdb_definitions commands) cmd.
Proof. unfold build_obdb_definitions. by rewrite foldl_app. Qed.

(** The table built from an OBDb file holds, for an identifier, what the
    last command with that [rax] and with signals contributes: an earlier
    command on the same identifier is overwritten, and a command without
    [rax], with a [rax] that is no hexadecimal number or without signals
    leaves no trace. *)
Theorem build_obdb_last_wins (commands : list obdb_command) (can_id : Z) :
  build_obdb_definitions commands !! can_id
  = snd <$> last (filter (λ item, item.1 = can_id) (omap obdb_entry commands)).
Proof.
  induction commands as [|cmd commands IH] using rev_ind; [done|].
  rewrite build_obdb_snoc, build_obdb_command_entry, omap_app, filter_app.
  cbn [omap list_omap].
  destruct (obdb_entry cmd) as [[cid defn]|]; cbn [omap list_omap].
  - rewrite lookup_insert. destruct (decide (cid = can_id)) as [->|Hne].
    + rewrite filter_cons_True by done. by rewrite filter_nil, last_snoc.
    + rewrite filter_cons_False by done. by rewrite filter_nil, app_nil_r.
  - by rewrite filter_nil, app_nil_r.
Qed.

Lemma build_obdb_entries commands can_id defn :
  build_obdb_definitions commands !! can_id = Some defn →
  ∃ cmd, cmd ∈ commands ∧ obdb_entry cmd = Some (can_id, defn).
Proof.
  induction commands as [|cmd commands IH] using rev_ind; [done|].
  rewrite build_obdb_snoc, build_obdb_command_entry.
  destruct (obdb_entry cmd) as [[cid d]|] eqn:Hentry.
  - rewrite lookup_insert. destruct (decide (cid = can_id)) as [->|Hne].
    + intros [= <-]. exists cmd. split; [|done]. apply elem_of_app. right. by left.
    + intros Hold. destruct (IH Hold) as (c & Hc & He).
      exists c. split; [|done]. apply elem_of_app. by left.
  - intros Hold. destruct (IH Hold) as (c & Hc & He).
    exists c. split; [|done]. apply elem_of_app. by left.
Qed.

Lemma append_not_empty (s t : string) : s ≠ ""%string → (s ++ t)%string ≠ ""%string.
Proof. by destruct s. Qed.

Lemma obdb_message_name_not_empty cmd : _build_obdb_message_name cmd ≠ ""%string.
Proof.
  unfold _build_obdb_message_name, truthy. cbv zeta.
  destruct (match cmd_signals cmd with Some (first :: _) => sig_path first | _ => None end)
    as [p|];
    destruct (match cmd_cmd cmd with
              | Some ((svc, pid) :: _) => Some (svc ++ " " ++ pid)%string
              | _ => None end) as [l|]; try done.
  - destruct (bool_decide_reflect (p = ""%string)); cbn [negb]; [done|].
    by apply append_not_empty.
  - by destruct (bool_decide_reflect (p = ""%string)).
Qed.

(** Every entry of the table built from an OBDb file carries the provenance
    [obdb], a name that is not empty, and at least one signal; each of its
    signals has the provenance [obdb], a name, a unit, an offset and a
    length (0, 8 and [raw] where the file gives none). *)
Theorem build_obdb_entries_complete (commands : list obdb_command) (can_id : Z)
  (defn : message_def) :
  build_obdb_definitions commands !! can_id = Some defn →
  md_source defn = Some "obdb"%string
  ∧ (∃ nm, md_name defn = Some nm ∧ nm ≠ ""%string)
  ∧ ∃ sigs, md_signals defn = Some sigs ∧ sigs ≠ []
      ∧ Forall (λ sd, sd_source sd = Some "obdb"%string
                      ∧ is_Some (sd_name sd) ∧ is_Some (sd_unit sd)
                      ∧ is_Some (sd_bix sd) ∧ is_Some (sd_len sd)
                      ∧ is_Some (sd_sign sd)) sigs.
Proof.
  intros Hlook. apply build_obdb_entries in Hlook as (cmd & _ & Hentry).
  unfold obdb_entry in Hentry.
  destruct (cmd_rax cmd) as [rax|]; [|done].
  destruct (decide (rax = ""%string)); [done|].
  destruct (Py.int 16 rax); [|done].
  destruct (default [] (cmd_signals cmd)) as [|sig sigs]; [done|].
  injection Hentry as _ <-. cbn [md_source md_name md_signals].
  split; [done|]. split.
  - eexists. split; [done|]. apply obdb_message_name_not_empty.
  - eexists. split; [done|]. split; [done|].
    apply Forall_forall. intros sd Hsd.
    apply list_elem_of_In in Hsd.
    change (In sd (map obdb_signal_def (sig :: sigs))) in Hsd.
    apply in_map_iff in Hsd as (x & <- & _).
    unfold obdb_signal_def. cbn. repeat split; eauto.
Qed.

Lemma build_obdb_entries_complete_witness :
  md_source (command_entry_example) = Some "obdb"%string
  ∧ (∃ nm, md_name command_entry_example = Some nm ∧ nm ≠ ""%string)
  ∧ ∃ sigs, md_signals command_entry_example = Some sigs ∧ sigs ≠ []
      ∧ Forall (λ sd, sd_source sd = Some "obdb"%string
                      ∧ is_Some (sd_name sd) ∧ is_Some (sd_unit sd)
                      ∧ is_Some (sd_bix sd) ∧ is_Some (sd_len sd)
                      ∧ is_Some (sd_sign sd)) sigs.
Proof.
  apply (build_obdb_entries_complete
           [command_example "Engine" "Oil" "1F00"; command_example "Gearbox" "Gear" "2A00"]
           0x7E8 command_entry_example).
  vm_compute. reflexivity.
Defined.

(** ** Compact records: reading a file, and reading back what was written *)

Lemma byte_val_of_Z z : 0 <= z < 256 → byte_val (byte_of_Z z) = z.
Proof.
  intros Hz. unfold byte_val, byte_of_Z.
  destruct (Byte.of_N (Z.to_N z)) as [b|] eqn:Hb.
  - apply Byte.to_of_N in Hb. change (default x00 (Some b)) with b. rewrite Hb. lia.
  - apply Byte.of_N_None_iff in Hb. lia.
Qed.

Lemma le_uint_le_bytes (n : nat) : ∀ z,
  0 <= z < 2 ^ (8 * Z.of_nat n) → le_uint (le_bytes n z) = z.
Proof.
  induction n as [|n IH]; intros z Hz.
  - cbn in *. lia.
  - cbn [le_bytes le_uint].
    replace (8 * Z.of_nat (Datatypes.S n)) with (8 + 8 * Z.of_nat n) in Hz by lia.
    rewrite Z.pow_add_r in Hz by lia. change (2 ^ 8) with 256 in Hz.
    rewrite byte_val_of_Z by (apply Z.mod_pos_bound; lia).
    rewrite IH.
    + pose proof (Z.div_mod z 256 ltac:(lia)). lia.
    + split; [apply Z.div_pos; lia|].
      apply Z.div_lt_upper_bound; lia.
Qed.

Lemma le_uint_one (b : byte) : le_uint [b] = byte_val b.
Proof. cbn [le_uint]. lia. Qed.

Lemma compact_frame (chunk : list byte) :
  List.length chunk = 19%nat →
  ∃ ts data_bytes,
    unpack record_struct chunk
    = Ok (VInt ts :: VInt (fr_id (frame_of_record chunk))
          :: VInt (fr_dlc (frame_of_record chunk)) :: data_bytes)
    ∧ map int_of data_bytes = map byte_val (field 11 8 chunk).
Proof.
  intros Hlen.
  do 19 (destruct chunk as [|? chunk]; [discriminate Hlen|]).
  destruct chunk; [|discriminate Hlen].
  eexists _, _. split; [reflexivity|].
  cbn [map int_of field take drop unpack_from unpack_one size record_struct].
  by rewrite !le_uint_one.
Qed.

Lemma parse_bin_records_step (turns : nat) (f : list byte) :
  (19 <= List.length f)%nat →
  parse_bin_records_from (Datatypes.S turns) f
  = rest ← parse_bin_records_from turns (drop 19 f);
    Ok (frame_of_record (take 19 f) :: rest).
Proof.
  intros Hlen. cbn [parse_bin_records_from].
  change (calcsize record_struct) with 19%nat.
  assert (Hchunk : List.length (take 19 f) = 19%nat) by (rewrite length_take; lia).
  destruct (decide (List.length (take 19 f) < 19)%nat); [lia|].
  destruct (compact_frame _ Hchunk) as (ts & data_bytes & -> & Hdata).
  cbn [mbind res_bind]. unfold frame_of_record at 3. cbv zeta.
  by rewrite Hdata.
Qed.

Lemma compact_records_short (f : list byte) :
  (List.length f < 19)%nat → compact_records f = [].
Proof. intros Hlt. unfold compact_records. by rewrite Nat.div_small. Qed.

Lemma compact_records_cons (f : list byte) :
  (19 <= List.length f)%nat →
  compact_records f = take 19 f :: compact_records (drop 19 f).
Proof.
  intros Hlen. unfold compact_records. rewrite length_drop.
  replace (List.length f) with (1 * 19 + (List.length f - 19))%nat at 1 by lia.
  rewrite Nat.div_add_l by lia. cbn [Nat.add seq map].
  rewrite Nat.mul_0_r, drop_0. f_equal.
  rewrite <- seq_shift, map_map. apply map_ext. intros i.
  rewrite drop_drop. do 2 f_equal. lia.
Qed.

Lemma parse_bin_records_from_spec (turns : nat) : ∀ f,
  (List.length f <= turns)%nat →
  parse_bin_records_from turns f = Ok (map frame_of_record (compact_records f)).
Proof.
  induction turns as [|turns IH]; intros f Hlen.
  - rewrite compact_records_short by lia. reflexivity.
  - destruct (le_lt_dec 19 (List.length f)) as [Hge|Hlt].
    + rewrite parse_bin_records_step, compact_records_cons by assumption.
      rewrite IH by (rewrite length_drop; lia). reflexivity.
    + rewrite compact_records_short by assumption.
      cbn [parse_bin_records_from]. change (calcsize record_struct) with 19%nat.
      destruct (decide (List.length (take 19 f) < 19)%nat) as [|Hno]; [done|].
      rewrite length_take in Hno. lia.
Qed.

Lemma parse_bin_records_from_spec_all (f : list byte) :
  parse_bin_records f = Ok (map frame_of_record (compact_records f))
  ∧ List.length (compact_records f) = (List.length f / 19)%nat.
Proof.
  split.
  - unfold parse_bin_records. by apply parse_bin_records_from_spec.
  - unfold compact_records. by rewrite length_map, length_seq.
Qed.

(** [parse_bin_records] never raises: a file of [n] bytes gives exactly
    [n / 19] frames, one for each whole record in order, each with the
    identifier at offset 8 (u16), the length at offset 10 and the payload
    from offset 11 cut to the length; bytes after the last whole record
    are dropped without a report. *)
Theorem parse_bin_records_frames (f : list byte) :
  parse_bin_records f = Ok (map frame_of_record (compact_records f))
  ∧ List.length (compact_records f) = (List.length f / 19)%nat.
Proof.
  split.
  - unfold parse_bin_records. by apply parse_bin_records_from_spec.
  - unfold compact_records. by rewrite length_map, length_seq.
Qed.

Lemma pack_int_inv (c : code) (z : Z) (bs : list byte) :
  (∀ n, c ≠ S n) → pack_one c (VInt z) = Ok bs →
  0 <= z < 2 ^ (8 * Z.of_nat (size c)) ∧ bs = le_bytes (size c) z.
Proof.
  intros Hc. destruct c; try (by exfalso; eapply Hc); cbn [pack_one];
    match goal with |- context [if ?b then _ else _] => destruct b eqn:Hrange end;
    try done; intros [= <-];
    apply andb_true_iff in Hrange as [Hlo%Z.leb_le Hhi%Z.ltb_lt]; by split.
Qed.

Lemma pack_bytes_inv (bs : list Z) (out : list byte) :
  pack (map (λ _, B) bs) (map VInt bs) = Ok out →
  Forall is_byte bs ∧ out = concat (map (le_bytes 1) bs).
Proof.
  revert out. induction bs as [|b bs IH]; intros out.
  - by intros [= <-].
  - cbn [map pack].
    destruct (pack_one B (VInt b)) as [fld|] eqn:Hfld; cbn [mbind res_bind]; [|done].
    apply pack_int_inv in Hfld as [Hb ->]; [|done].
    destruct (pack _ _) as [rest|]; cbn [mbind res_bind]; [|done].
    destruct (IH rest eq_refl) as [Hbs ->]. intros [= <-].
    split; [constructor; [exact Hb | exact Hbs] | done].
Qed.

Lemma pack_record_inv (timestamp can_id dlc : Z) (bs : list Z) (rec : list byte) :
  List.length bs = 8%nat →
  pack CsvToBin.RECORD_STRUCT
    (VInt timestamp :: VInt can_id :: VInt dlc :: map VInt bs) = Ok rec →
  fits_record timestamp can_id dlc bs
  ∧ rec = le_bytes 8 timestamp ++ le_bytes 2 can_id ++ le_bytes 1 dlc
          ++ concat (map (le_bytes 1) bs).
Proof.
  intros Hlen. unfold CsvToBin.RECORD_STRUCT.
  replace [Q; H; B; B; B; B; B; B; B; B; B] with (Q :: H :: B :: map (λ _, B) bs).
  2:{ do 8 (destruct bs as [|? bs]; [discriminate Hlen|]). by destruct bs. }
  cbn [pack].
  destruct (pack_one Q _) as [f1|] eqn:H1; cbn [mbind res_bind]; [|done].
  destruct (pack_one H _) as [f2|] eqn:H2; cbn [mbind res_bind]; [|done].
  destruct (pack_one B _) as [f3|] eqn:H3; cbn [mbind res_bind]; [|done].
  destruct (pack _ _) as [f4|] eqn:H4; cbn [mbind res_bind]; [|done].
  apply pack_int_inv in H1 as [R1 ->]; [|done].
  apply pack_int_inv in H2 as [R2 ->]; [|done].
  apply pack_int_inv in H3 as [R3 ->]; [|done].
  apply pack_bytes_inv in H4 as [R4 ->].
  intros [= <-]. split; [|done].
  change (8 * Z.of_nat (size Q)) with 64 in R1.
  change (8 * Z.of_nat (size H)) with 16 in R2.
  change (8 * Z.of_nat (size B)) with 8 in R3.
  unfold fits_record. split; [exact R1|]. split; [exact R2|]. split; [exact R3|].
  exact R4.
Qed.

Lemma bytes_back (bs : list Z) :
  Forall is_byte bs → map byte_val (concat (map (le_bytes 1) bs)) = bs.
Proof.
  induction 1 as [|b bs Hb _ IH]; [done|].
  change (concat (map (le_bytes 1) (b :: bs)))
    with (le_bytes 1 b ++ concat (map (le_bytes 1) bs)).
  rewrite map_app, IH. cbn [le_bytes map app]. f_equal.
  unfold is_byte in Hb. rewrite Z.mod_small by lia. by apply byte_val_of_Z.
Qed.

Lemma bytes_length (bs : list Z) :
  List.length (concat (map (le_bytes 1) bs)) = List.length bs.
Proof.
  induction bs as [|b bs IH]; [done|].
  change (concat (map (le_bytes 1) (b :: bs)))
    with (le_bytes 1 b ++ concat (map (le_bytes 1) bs)).
  rewrite length_app, IH. reflexivity.
Qed.

Lemma frame_of_packed (timestamp can_id dlc : Z) (bs : list Z) :
  fits_record timestamp can_id dlc bs → List.length bs = 8%nat →
  frame_of_record (le_bytes 8 timestamp ++ le_bytes 2 can_id ++ le_bytes 1 dlc
                   ++ concat (map (le_bytes 1) bs))
  = {| fr_id := can_id; fr_dlc := dlc; fr_data := Py.slice_to bs dlc |}.
Proof.
  intros (Hts & Hid & Hdlc & Hbs) Hlen. unfold frame_of_record, field. cbv zeta.
  assert (H8 : ∀ X, drop 8 (le_bytes 8 timestamp ++ X) = X).
  { intros X. by rewrite drop_app_length' by (rewrite ?length_app, ?le_bytes_length; lia). }
  assert (H10 : ∀ X, drop 10 (le_bytes 8 timestamp ++ le_bytes 2 can_id ++ X) = X).
  { intros X. rewrite app_assoc.
    by rewrite drop_app_length' by (rewrite ?length_app, ?le_bytes_length; lia). }
  assert (H11 : ∀ X, drop 11 (le_bytes 8 timestamp ++ le_bytes 2 can_id
                                ++ le_bytes 1 dlc ++ X) = X).
  { intros X. rewrite !app_assoc.
    by rewrite drop_app_length' by (rewrite ?length_app, ?le_bytes_length; lia). }
  rewrite H8, H10, H11.
  rewrite (take_app_length' (le_bytes 2 can_id)) by (rewrite ?le_bytes_length; lia).
  rewrite (take_app_length' (le_bytes 1 dlc)) by (rewrite ?le_bytes_length; lia).
  rewrite take_ge by (rewrite bytes_length; lia).
  rewrite !le_uint_le_bytes by (cbn; lia).
  by rewrite bytes_back.
Qed.

Lemma compact_records_app (rec rest : list byte) :
  List.length rec = 19%nat →
  compact_records (rec ++ rest) = rec :: compact_records rest.
Proof.
  intros Hlen. rewrite compact_records_cons by (rewrite length_app; lia).
  by rewrite take_app_length', drop_app_length' by lia.
Qed.

Lemma compact_records_concat (recs : list (list byte)) :
  Forall (λ rec, List.length rec = 19%nat) recs →
  compact_records (concat recs) = recs.
Proof.
  induction 1 as [|rec recs Hrec _ IH]; [done|].
  cbn [concat]. by rewrite compact_records_app, IH.
Qed.

Lemma convert_row_inv (row : csv_row) (r : option (list byte)) :
  CsvToBin.convert_row row = Ok r →
  match r with
  | None => row_frame row = None
  | Some rec => List.length rec = 19%nat
                ∧ row_frame row = Some (frame_of_record rec)
  end.
Proof.
  unfold CsvToBin.convert_row, row_frame.
  destruct (CsvToBin.parse_fields row) as [[[ts cid] dlc]|]; [|by intros [= <-]].
  rewrite (for_each_total _ (byte_value row)) by apply byte_cell_value.
  cbn [mbind res_bind].
  replace (Py.slice_to (map (byte_value row) range8) 8)
    with (map (byte_value row) range8) by reflexivity.
  destruct (pack _ _) as [rec|] eqn:Hpack; cbn [mbind res_bind]; [|done].
  intros [= <-].
  apply pack_record_inv in Hpack as [Hfits ->]; [|reflexivity].
  rewrite frame_of_packed by (assumption || reflexivity).
  split; [|done].
  rewrite !length_app, !le_bytes_length, bytes_length. reflexivity.
Qed.

Lemma convert_rows_inv (rows : list csv_row) : ∀ f_out written out n,
  CsvToBin.convert_rows rows f_out written = Ok (out, n) →
  ∃ recs, out = f_out ++ concat recs
    ∧ n = written + Z.of_nat (List.length recs)
    ∧ Forall (λ rec, List.length rec = 19%nat) recs
    ∧ map frame_of_record recs = omap row_frame rows.
Proof.
  induction rows as [|row rows IH]; intros f_out written out n.
  - intros [= <- <-]. exists []. rewrite app_nil_r. repeat split; [cbn; lia | done].
  - cbn [CsvToBin.convert_rows].
    destruct (CsvToBin.convert_row row) as [r|] eqn:Hrow; cbn [mbind res_bind]; [|done].
    apply convert_row_inv in Hrow. destruct r as [rec|].
    + destruct Hrow as [Hlen Hframe]. intros Hrest.
      apply IH in Hrest as (recs & -> & -> & Hall & Hmap).
      exists (rec :: recs). cbn [concat omap list_omap map]. rewrite Hframe, <- Hmap.
      repeat split; [by rewrite <- app_assoc | cbn [List.length]; lia | by constructor].
    + intros Hrest. apply IH in Hrest as (recs & -> & -> & Hall & Hmap).
      exists recs. cbn [omap list_omap]. by rewrite Hrow.
Qed.

(** What [convert] writes, [parse_bin_records] reads back: whenever the
    conversion of a CSV file ends without an exception, its output holds 19
    bytes for each record counted, and reading it gives, in order, the
    frames of the rows that were not passed over, with their identifier,
    their length and their payload cut to the length. *)
Theorem convert_then_parse (rows : list csv_row) (out : list byte) (n : Z) :
  CsvToBin.convert rows = Ok (out, n) →
  parse_bin_records out = Ok (omap row_frame rows)
  ∧ n = Z.of_nat (List.length (omap row_frame rows))
  ∧ Z.of_nat (List.length out) = 19 * n.
Proof.
  unfold CsvToBin.convert. intros Hrun.
  apply convert_rows_inv in Hrun as (recs & -> & -> & Hall & Hmap).
  cbn [app]. split; [|split].
  - rewrite (proj1 (parse_bin_records_from_spec_all (concat recs))).
    rewrite compact_records_concat by assumption. by rewrite Hmap.
  - rewrite <- Hmap, length_map. lia.
  - clear Hmap. induction Hall as [|rec recs Hrec _ IH]; [done|].
    cbn [concat List.length]. rewrite length_app. lia.
Qed.

Lemma convert_then_parse_witness :
  parse_bin_records
    [x84; xa1; x07; x00; x00; x00; x00; x00; xd0; x01; x02;
     x12; x00; x00; x00; x00; x00; x00; x00]
  = Ok (omap row_frame [row_bad_timestamp; row_bad_byte])
  ∧ 1 = Z.of_nat (List.length (omap row_frame [row_bad_timestamp; row_bad_byte]))
  ∧ Z.of_nat (List.length
                [x84; xa1; x07; x00; x00; x00; x00; x00; xd0; x01; x02;
                 x12; x00; x00; x00; x00; x00; x00; x00]) = 19 * 1.
Proof.
  apply (convert_then_parse [row_bad_timestamp; row_bad_byte]).
  vm_compute. reflexivity.
Defined.

(** ** The analysis of a log: frames by identifier, and the summary *)

Lemma frames_with_default (can_id : Z) (msgs : list frame) :
  default [] (frames_with can_id msgs) = filter (λ msg, fr_id msg = can_id) msgs.
Proof. unfold frames_with. by destruct (filter _ msgs). Qed.

Lemma frames_with_snoc (can_id : Z) (msgs : list frame) (msg : frame) :
  frames_with can_id (msgs ++ [msg])
  = if decide (fr_id msg = can_id)
    then Some (default [] (frames_with can_id msgs) ++ [msg])
    else frames_with can_id msgs.
Proof.
  rewrite frames_with_default. unfold frames_with.
  rewrite filter_app, filter_cons, filter_nil.
  destruct (decide (fr_id msg = can_id)) as [Heq|Hne].
  - by destruct (filter _ msgs).
  - by rewrite app_nil_r.
Qed.

Lemma append_messages_lookup (msgs : list frame) (can_id : Z) :
  ∀ (pre : list frame) (messages_by_id : gmap Z (list frame)),
  messages_by_id !! can_id = frames_with can_id pre →
  foldl append_message messages_by_id msgs !! can_id
  = frames_with can_id (pre ++ msgs).
Proof.
  induction msgs as [|msg msgs IH]; intros pre acc Hacc.
  - by rewrite app_nil_r.
  - cbn [foldl]. rewrite (IH (pre ++ [msg])); [by rewrite <- app_assoc|].
    rewrite frames_with_snoc. unfold append_message.
    destruct (decide (fr_id msg = can_id)) as [<-|Hne].
    + by rewrite lookup_insert_eq, Hacc.
    + by rewrite lookup_insert_ne.
Qed.

Lemma analyze_loop_frames {A} (parse : A → res (option frame)) (g : A → option frame)
  (items : list A) :
  (∀ item, In item items → parse item = Ok (g item)) →
  ∀ messages_by_id,
  analyze_loop parse items messages_by_id
  = Ok (foldl append_message messages_by_id (omap g items)).
Proof.
  induction items as [|item items IH]; intros Hparse acc; [done|].
  cbn [analyze_loop]. rewrite (Hparse item) by (by left).
  cbn [mbind res_bind omap list_omap].
  rewrite IH by (intros ? ?; apply Hparse; by right).
  by destruct (g item).
Qed.

(** Reading a compact log always succeeds, and files every frame under its
    identifier: the list of an identifier holds the frames of the whole
    records that carry it, in the order of the file, and an identifier no
    record carries has no list. *)
Theorem analyze_bin_groups (re_search : string → option (string * string * string))
  (f : list byte) :
  ∃ messages_by_id,
    analyze re_search (BinLog f) = Ok messages_by_id
    ∧ ∀ can_id, messages_by_id !! can_id
                = frames_with can_id (map frame_of_record (compact_records f)).
Proof.
  eexists. split.
  - cbn [analyze]. rewrite (proj1 (parse_bin_records_from_spec_all f)). reflexivity.
  - intros can_id. by rewrite (append_messages_lookup _ can_id []).
Qed.

Lemma lstrip_head (l : list ascii) :
  match Py.lstrip l with c :: _ => Py.is_space c = false | [] => True end.
Proof.
  induction l as [|c l IH]; [done|]. cbn [Py.lstrip].
  by destruct (Py.is_space c) eqn:Hc.
Qed.

Lemma lstrip_fixed (l : list ascii) :
  match l with c :: _ => Py.is_space c = false | [] => True end →
  Py.lstrip l = l.
Proof. destruct l as [|c l]; [done|]. cbn [Py.lstrip]. by intros ->. Qed.

Lemma lstrip_suffix (l : list ascii) : ∃ p, l = p ++ Py.lstrip l.
Proof.
  induction l as [|c l [p IH]]; [by exists []|]. cbn [Py.lstrip].
  destruct (Py.is_space c); [|by exists []].
  exists (c :: p). cbn [app]. by rewrite <- IH.
Qed.

Lemma strip_chars_idemp (s : list ascii) :
  Py.strip_chars (Py.strip_chars s) = Py.strip_chars s.
Proof.
  unfold Py.strip_chars.
  destruct (lstrip_suffix (rev (Py.lstrip s))) as [p Hp].
  pose proof (lstrip_head s) as Hs.
  pose proof (lstrip_head (rev (Py.lstrip s))) as Hy.
  set (y := Py.lstrip (rev (Py.lstrip s))) in *.
  assert (Hx : Py.lstrip s = rev y ++ rev p).
  { by rewrite <- rev_app_distr, <- Hp, rev_involutive. }
  assert (Hfix : Py.lstrip (rev y) = rev y).
  { apply lstrip_fixed. rewrite Hx in Hs. by destruct (rev y). }
  rewrite Hfix, rev_involutive. f_equal. by apply lstrip_fixed.
Qed.

Lemma int_strip (base : Z) (s : string) :
  Py.int base (Py.strip s) = Py.int base s.
Proof.
  unfold Py.int, Py.strip.
  by rewrite list_ascii_of_string_of_list_ascii, strip_chars_idemp.
Qed.

Lemma for_each_total_in {A B} (f : A → res B) (g : A → B) (l : list A) :
  (∀ x, In x l → f x = Ok (g x)) → for_each f l = Ok (map g l).
Proof.
  induction l as [|x l IH]; intros Hf; [done|].
  cbn [for_each map]. rewrite Hf by (by left).
  by rewrite IH by (intros ? ?; apply Hf; by right).
Qed.

Lemma parse_csv_row_frame (row : csv_row) :
  full_row row = true → parse_csv_row row = Ok (row_frame row).
Proof.
  unfold full_row. intros [[Hts Hid]%andb_true_iff Hbytes]%andb_true_iff.
  unfold parse_csv_row, row_frame, CsvToBin.parse_fields.
  destruct (int_cell row "timestamp_us") as [ts|]; [|done].
  cbn [mbind res_bind]. rewrite int_strip.
  assert (str_cell row "can_id" "" = str_cell row "can_id" "0") as ->.
  { unfold str_cell. by destruct (row !! "can_id"%string). }
  destruct (Py.int 16 _) as [can_id|]; cbn [mbind res_bind]; [|done].
  destruct (int_cell row "dlc") as [dlc|]; cbn [mbind res_bind]; [|done].
  rewrite (for_each_total_in _ (byte_value row)); [done|].
  intros i Hi. rewrite forallb_forall in Hbytes. specialize (Hbytes i Hi).
  rewrite <- byte_cell_value. unfold CsvToBin.byte_cell, str_cell.
  by destruct (row !! byte_key i) as [[s|]|].
Qed.

(** A CSV log and its conversion to compact records are analysed alike:
    when [convert] ends without an exception on rows whose timestamp can be
    read, that have an identifier cell and whose byte cells are not cut
    off, [analyze] gives the same frames by identifier for the rows and for
    the bytes [convert] wrote. *)
Theorem analyze_csv_matches_bin (re_search : string → option (string * string * string))
  (rows : list csv_row) (out : list byte) (n : Z) :
  CsvToBin.convert rows = Ok (out, n) →
  forallb full_row rows = true →
  analyze re_search (CsvLog rows)
  = Ok (foldl append_message ∅ (omap row_frame rows))
  ∧ analyze re_search (BinLog out) = analyze re_search (CsvLog rows).
Proof.
  intros Hrun Hrows.
  assert (Hcsv : analyze re_search (CsvLog rows)
                 = Ok (foldl append_message ∅ (omap row_frame rows))).
  { cbn [analyze]. apply analyze_loop_frames. intros row Hrow.
    apply parse_csv_row_frame. rewrite forallb_forall in Hrows. by apply Hrows. }
  split; [exact Hcsv|]. rewrite Hcsv. clear Hcsv.
  unfold CsvToBin.convert in Hrun.
  apply convert_rows_inv in Hrun as (recs & -> & -> & Hall & Hmap).
  cbn [app analyze].
  rewrite (proj1 (parse_bin_records_from_spec_all (concat recs))).
  rewrite compact_records_concat by assumption. by rewrite Hmap.
Qed.

Lemma analyze_csv_matches_bin_witness :
  analyze search_example (CsvLog [row_bad_byte; row_bad_byte])
  = Ok (foldl append_message ∅ (omap row_frame [row_bad_byte; row_bad_byte]))
  ∧ analyze search_example
      (BinLog ([x84; xa1; x07; x00; x00; x00; x00; x00; xd0; x01; x02;
                x12; x00; x00; x00; x00; x00; x00; x00]
               ++ [x84; xa1; x07; x00; x00; x00; x00; x00; xd0; x01; x02;
                   x12; x00; x00; x00; x00; x00; x00; x00]))
    = analyze search_example (CsvLog [row_bad_byte; row_bad_byte]).
Proof.
  apply (analyze_csv_matches_bin search_example [row_bad_byte; row_bad_byte] _ 2).
  - vm_compute. reflexivity.
  - vm_compute. reflexivity.
Defined.

Lemma filter_lengths_split {A} (P Q R : A → Prop)
  `{!∀ x, Decision (P x)} `{!∀ x, Decision (Q x)} `{!∀ x, Decision (R x)}
  (l : list A) :
  (∀ x, R x ↔ P x ∨ Q x) → (∀ x, P x → Q x → False) →
  (List.length (filter P l) + List.length (filter Q l))%nat
  = List.length (filter R l).
Proof.
  intros HR Hdisj. induction l as [|x l IH]; [done|].
  rewrite !filter_cons.
  destruct (decide (P x)) as [HP|HP], (decide (Q x)) as [HQ|HQ],
           (decide (R x)) as [Hx|Hx]; cbn [List.length];
    try lia; exfalso;
    pose proof (HR x) as Hiff; pose proof (Hdisj x) as Hno; tauto.
Qed.

Lemma filter_agree {A} (P Q : A → Prop)
  `{!∀ x, Decision (P x)} `{!∀ x, Decision (Q x)} (l : list A) :
  (∀ x, x ∈ l → P x ↔ Q x) → filter P l = filter Q l.
Proof.
  induction l as [|x l IH]; intros Hl; [done|].
  rewrite !filter_cons.
  rewrite IH by (intros y Hy; apply Hl; by right).
  assert (Hx : P x ↔ Q x) by (apply Hl; by left).
  destruct (decide (P x)), (decide (Q x)); tauto || done.
Qed.

Lemma sum_filter_lengths (ks : list Z) (msgs : list frame) :
  NoDup ks →
  sum_list (map (λ k, List.length (filter (λ msg, fr_id msg = k) msgs)) ks)
  = List.length (filter (λ msg, fr_id msg ∈ ks) msgs).
Proof.
  induction 1 as [|k ks Hk _ IH].
  - cbn [map sum_list]. induction msgs as [|msg msgs IHm]; [done|].
    rewrite filter_cons. destruct (decide _) as [Hin|_]; [|exact IHm].
    by apply elem_of_nil in Hin.
  - cbn [map sum_list]. rewrite IH. apply filter_lengths_split.
    + intros msg. rewrite elem_of_cons. naive_solver.
    + intros msg -> Hin. by apply Hk.
Qed.

Lemma summary_fold (signal_definitions : gmap Z merged_def)
  (messages_by_id : gmap Z (list frame)) (ks : list Z) : ∀ d u,
  foldl (λ '(decoded_count, unknown_count) can_id,
      let messages := default [] (messages_by_id !! can_id) in
      let count := Z.of_nat (List.length messages) in
      if decide (is_Some (signal_definitions !! can_id))
      then (decoded_count + count, unknown_count)
      else (decoded_count, unknown_count + count))
    (d, u) ks
  = (d + Z.of_nat (sum_list (map (λ k, List.length (default [] (messages_by_id !! k)))
                               (filter (λ k, is_Some (signal_definitions !! k)) ks))),
     u + Z.of_nat (sum_list (map (λ k, List.length (default [] (messages_by_id !! k)))
                               (filter (λ k, ¬ is_Some (signal_definitions !! k)) ks)))).
Proof.
  induction ks as [|k ks IH]; intros d u.
  - cbn. f_equal; lia.
  - cbn [foldl]. cbv zeta. rewrite !filter_cons.
    destruct (decide (is_Some (signal_definitions !! k))) as [Hk|Hk].
    + rewrite IH. destruct (decide (¬ is_Some _)) as [Hn|_]; [by destruct Hn|].
      cbn [map sum_list]. unfold id. f_equal; lia.
    + rewrite IH. destruct (decide (¬ is_Some _)) as [_|Hn]; [|by destruct Hn].
      cbn [map sum_list]. unfold id. f_equal; lia.
Qed.

Lemma sorted_keys_spec (messages_by_id : gmap Z (list frame)) :
  NoDup (sorted_keys messages_by_id)
  ∧ ∀ k, k ∈ sorted_keys messages_by_id ↔ is_Some (messages_by_id !! k).
Proof.
  unfold sorted_keys. split.
  - rewrite merge_sort_Permutation. apply NoDup_fst_map_to_list.
  - intros k. rewrite merge_sort_Permutation, list_elem_of_fmap. split.
    + intros [[k' l] [-> Hin%elem_of_map_to_list]]. by exists l.
    + intros [l Hl]. exists (k, l). split; [done|]. by apply elem_of_map_to_list.
Qed.

Lemma summary_count (P : Z → Prop) `{!∀ k, Decision (P k)} (msgs : list frame) :
  sum_list (map (λ k, List.length
                        (default [] (foldl append_message ∅ msgs !! k)))
              (filter P (sorted_keys (foldl append_message ∅ msgs))))
  = List.length (filter (λ msg, P (fr_id msg)) msgs).
Proof.
  destruct (sorted_keys_spec (foldl append_message ∅ msgs)) as [Hnd Hkeys].
  erewrite map_ext; last first.
  { intros k. rewrite (append_messages_lookup _ k []) by done.
    cbn [app]. by rewrite frames_with_default. }
  rewrite sum_filter_lengths by (by apply NoDup_filter).
  f_equal. apply filter_agree. intros msg Hmsg.
  rewrite list_elem_of_filter, Hkeys.
  rewrite (append_messages_lookup _ (fr_id msg) []) by done. cbn [app].
  split; [by intros [? _]|]. intros HP. split; [done|].
  unfold frames_with.
  destruct (filter _ msgs) as [|x l] eqn:Hfilter; [|done].
  assert (Hin : msg ∈ filter (λ m, fr_id m = fr_id msg) msgs)
    by (by apply list_elem_of_filter).
  rewrite Hfilter in Hin. by apply elem_of_nil in Hin.
Qed.

(** The counters of the summary: after the frames of a log were filed by
    identifier, [print_decoded_summary] counts as decoded exactly the
    frames whose identifier has a definition and as unknown exactly the
    others, so the two counters add up to the number of frames read. *)
Theorem summary_counts (signal_definitions : gmap Z merged_def) (msgs : list frame) :
  print_decoded_summary signal_definitions (foldl append_message ∅ msgs)
  = (Z.of_nat (List.length
                 (filter (λ msg, is_Some (signal_definitions !! fr_id msg)) msgs)),
     Z.of_nat (List.length
                 (filter (λ msg, ¬ is_Some (signal_definitions !! fr_id msg)) msgs)))
  ∧ fst (print_decoded_summary signal_definitions (foldl append_message ∅ msgs))
    + snd (print_decoded_summary signal_definitions (foldl append_message ∅ msgs))
    = Z.of_nat (List.length msgs).
Proof.
  assert (Hcount :
    print_decoded_summary signal_definitions (foldl append_message ∅ msgs)
    = (Z.of_nat (List.length
                   (filter (λ msg, is_Some (signal_definitions !! fr_id msg)) msgs)),
       Z.of_nat (List.length
                   (filter (λ msg, ¬ is_Some (signal_definitions !! fr_id msg)) msgs)))).
  { unfold print_decoded_summary. rewrite summary_fold.
    rewrite (summary_count (λ k, is_Some (signal_definitions !! k))).
    rewrite (summary_count (λ k, ¬ is_Some (signal_definitions !! k))).
    reflexivity. }
  split; [exact Hcount|]. rewrite Hcount. cbn [fst snd].
  rewrite <- Nat2Z.inj_add. f_equal.
  rewrite <- (Permutation_length
                (filter_app_complement
                   (λ msg, is_Some (signal_definitions !! fr_id msg)) msgs)).
  by rewrite length_app.
Qed.
